(** * DumpMaster64 disk tools: BAM, directory, geometry and PETSCII codec

    A shallow embedding of [software/pc/libs/disktools.py] and the
    properties of it that the specification states.

    Conventions of the embedding:
    - a Python [int] is a [Z] (unbounded, floor division and modulo are
      [Z.div] and [Z.modulo] for the positive divisors the code uses);
    - a [bytearray] is a [list Z] whose elements lie in [0, 256)
      ([bytes_ok]); a [str] is the [list Z] of its code points;
    - subscription [l[i]] follows Python: a negative index counts from the
      end, and an index outside [-len, len) raises [IndexError];
    - code that can raise returns a [result]; methods that mutate
      [self.bam] take the buffer and return the updated buffer. *)

From Stdlib Require Import ZArith List Lia Bool String Ascii.
From stdpp Require Import base list.
Import ListNotations.
Local Open Scope Z_scope.

(** ** Python primitives *)

Inductive exn : Set :=
  | IndexError
  | ValueError.

Inductive result (A : Type) : Type :=
  | Ok (a : A)
  | Raise (e : exn).
Arguments Ok {A} a.
Arguments Raise {A} e.

#[global] Instance result_ret : MRet result := fun A a => Ok a.
#[global] Instance result_bind : MBind result := fun A B f m =>
  match m with
  | Ok a => f a
  | Raise e => Raise e
  end.

Abbreviation bytes := (list Z) (only parsing).
Abbreviation str := (list Z) (only parsing).

Definition bytes_ok (b : bytes) : Prop := Forall (fun x => 0 <= x < 256) b.

(** The position a subscript [i] denotes in a sequence of [len] items. *)
Definition py_index (len i : Z) : result nat :=
  let j := if i <? 0 then i + len else i in
  if (0 <=? j) && (j <? len) then Ok (Z.to_nat j) else Raise IndexError.

(** [l[i]] *)
Definition py_getitem {A : Type} (l : list A) (i : Z) : result A :=
  k ← py_index (Z.of_nat (length l)) i;
  match l !! k with
  | Some v => Ok v
  | None => Raise IndexError
  end.

(** [b[i] = v] on a bytearray; the updated buffer is returned. *)
Definition bytearray_setitem (b : bytes) (i v : Z) : result bytes :=
  k ← py_index (Z.of_nat (length b)) i;
  if (0 <=? v) && (v <? 256) then Ok (<[k := v]> b) else Raise ValueError.

(** [l[start:stop]], never raises: bounds are clamped to the sequence. *)
Definition py_clamp (len i : Z) : Z :=
  if i <? 0 then Z.max 0 (i + len) else Z.min i len.

Definition py_slice {A : Type} (l : list A) (start stop : Z) : list A :=
  let len := Z.of_nat (length l) in
  let lo := py_clamp len start in
  let hi := py_clamp len stop in
  take (Z.to_nat (hi - lo)) (drop (Z.to_nat lo) l).

(** [range(start, stop, step)] for a positive [step]. *)
Fixpoint range_from (n : nat) (start step : Z) : list Z :=
  match n with
  | O => []
  | S n' => start :: range_from n' (start + step) step
  end.

Definition py_range (start stop step : Z) : list Z :=
  range_from (Z.to_nat ((stop - start + step - 1) / step)) start step.

(** A [for] loop whose body may raise, threading the loop state. *)
Fixpoint for_each {A S : Type} (body : S -> A -> result S) (xs : list A) (s : S)
  : result S :=
  match xs with
  | [] => Ok s
  | x :: xs' => s' ← body s x; for_each body xs' s'
  end.

(** ** Basic functions to work with a disk *)

Definition getsectors (track : Z) : Z :=
  if track <? 1 then 0
  else if track <? 18 then 21
  else if track <? 25 then 19
  else if track <? 31 then 18
  else if track <? 41 then 17
  else 0.

Definition getsectornumber (track sector : Z) : Z :=
  let number := fold_left (fun number x => number + getsectors x)
                          (py_range 1 track 1) 0 in
  number + sector.

Definition getfilepointer (track sector : Z) : Z :=
  256 * getsectornumber track sector.

(** ** PETSCII to ASCII conversion tables *)

Definition PETtoASCtable : list Z := [
    0x00; 0x01; 0x02; 0x03; 0x04; 0x05; 0x06; 0x07; 0x14; 0x09; 0x0d; 0x11; 0x93; 0x0a; 0x0e; 0x0f;
    0x10; 0x0b; 0x12; 0x13; 0x08; 0x15; 0x16; 0x17; 0x18; 0x19; 0x1a; 0x1b; 0x1c; 0x1d; 0x1e; 0x1f;
    0x20; 0x21; 0x22; 0x23; 0x24; 0x25; 0x26; 0x27; 0x28; 0x29; 0x2a; 0x2b; 0x2c; 0x2d; 0x2e; 0x2f;
    0x30; 0x31; 0x32; 0x33; 0x34; 0x35; 0x36; 0x37; 0x38; 0x39; 0x3a; 0x3b; 0x3c; 0x3d; 0x3e; 0x3f;
    0x40; 0x61; 0x62; 0x63; 0x64; 0x65; 0x66; 0x67; 0x68; 0x69; 0x6a; 0x6b; 0x6c; 0x6d; 0x6e; 0x6f;
    0x70; 0x71; 0x72; 0x73; 0x74; 0x75; 0x76; 0x77; 0x78; 0x79; 0x7a; 0x5b; 0x5c; 0x5d; 0x5e; 0x5f;
    0xc0; 0xc1; 0xc2; 0xc3; 0xc4; 0xc5; 0xc6; 0xc7; 0xc8; 0xc9; 0xca; 0xcb; 0xcc; 0xcd; 0xce; 0xcf;
    0xd0; 0xd1; 0xd2; 0xd3; 0xd4; 0xd5; 0xd6; 0xd7; 0xd8; 0xd9; 0xda; 0xdb; 0xdc; 0xdd; 0xde; 0xdf;
    0x80; 0x81; 0x82; 0x83; 0x84; 0x85; 0x86; 0x87; 0x88; 0x89; 0x8a; 0x8b; 0x8c; 0x8d; 0x8e; 0x8f;
    0x90; 0x91; 0x92; 0x0c; 0x94; 0x95; 0x96; 0x97; 0x98; 0x99; 0x9a; 0x9b; 0x9c; 0x9d; 0x9e; 0x9f;
    0xa0; 0xa1; 0xa2; 0xa3; 0xa4; 0xa5; 0xa6; 0xa7; 0xa8; 0xa9; 0xaa; 0xab; 0xac; 0xad; 0xae; 0xaf;
    0xb0; 0xb1; 0xb2; 0xb3; 0xb4; 0xb5; 0xb6; 0xb7; 0xb8; 0xb9; 0xba; 0xbb; 0xbc; 0xbd; 0xbe; 0xbf;
    0x60; 0x41; 0x42; 0x43; 0x44; 0x45; 0x46; 0x47; 0x48; 0x49; 0x4a; 0x4b; 0x4c; 0x4d; 0x4e; 0x4f;
    0x50; 0x51; 0x52; 0x53; 0x54; 0x55; 0x56; 0x57; 0x58; 0x59; 0x5a; 0x7b; 0x7c; 0x7d; 0x7e; 0x7f;
    0xa0; 0xa1; 0xa2; 0xa3; 0xa4; 0xa5; 0xa6; 0xa7; 0xa8; 0xa9; 0xaa; 0xab; 0xac; 0xad; 0xae; 0xaf;
    0xb0; 0xb1; 0xb2; 0xb3; 0xb4; 0xb5; 0xb6; 0xb7; 0xb8; 0xb9; 0xba; 0xbb; 0xbc; 0xbd; 0xbe; 0xbf].

Definition ASCtoPETtable : list Z := [
    0x00; 0x01; 0x02; 0x03; 0x04; 0x05; 0x06; 0x07; 0x14; 0x20; 0x0d; 0x11; 0x93; 0x0a; 0x0e; 0x0f;
    0x10; 0x0b; 0x12; 0x13; 0x08; 0x15; 0x16; 0x17; 0x18; 0x19; 0x1a; 0x1b; 0x1c; 0x1d; 0x1e; 0x1f;
    0x20; 0x21; 0x22; 0x23; 0x24; 0x25; 0x26; 0x27; 0x28; 0x29; 0x2a; 0x2b; 0x2c; 0x2d; 0x2e; 0x2f;
    0x30; 0x31; 0x32; 0x33; 0x34; 0x35; 0x36; 0x37; 0x38; 0x39; 0x3a; 0x3b; 0x3c; 0x3d; 0x3e; 0x3f;
    0x40; 0xc1; 0xc2; 0xc3; 0xc4; 0xc5; 0xc6; 0xc7; 0xc8; 0xc9; 0xca; 0xcb; 0xcc; 0xcd; 0xce; 0xcf;
    0xd0; 0xd1; 0xd2; 0xd3; 0xd4; 0xd5; 0xd6; 0xd7; 0xd8; 0xd9; 0xda; 0x5b; 0x5c; 0x5d; 0x5e; 0x5f;
    0xc0; 0x41; 0x42; 0x43; 0x44; 0x45; 0x46; 0x47; 0x48; 0x49; 0x4a; 0x4b; 0x4c; 0x4d; 0x4e; 0x4f;
    0x50; 0x51; 0x52; 0x53; 0x54; 0x55; 0x56; 0x57; 0x58; 0x59; 0x5a; 0xdb; 0xdc; 0xdd; 0xde; 0xdf;
    0x80; 0x81; 0x82; 0x83; 0x84; 0x85; 0x86; 0x87; 0x88; 0x89; 0x8a; 0x8b; 0x8c; 0x8d; 0x8e; 0x8f;
    0x90; 0x91; 0x92; 0x0c; 0x94; 0x95; 0x96; 0x97; 0x98; 0x99; 0x9a; 0x9b; 0x9c; 0x9d; 0x9e; 0x9f;
    0xa0; 0xa1; 0xa2; 0xa3; 0xa4; 0xa5; 0xa6; 0xa7; 0xa8; 0xa9; 0xaa; 0xab; 0xac; 0xad; 0xae; 0xaf;
    0xb0; 0xb1; 0xb2; 0xb3; 0xb4; 0xb5; 0xb6; 0xb7; 0xb8; 0xb9; 0xba; 0xbb; 0xbc; 0xbd; 0xbe; 0xbf;
    0x60; 0x61; 0x62; 0x63; 0x64; 0x65; 0x66; 0x67; 0x68; 0x69; 0x6a; 0x6b; 0x6c; 0x6d; 0x6e; 0x6f;
    0x70; 0x71; 0x72; 0x73; 0x74; 0x75; 0x76; 0x77; 0x78; 0x79; 0x7a; 0x7b; 0x7c; 0x7d; 0x7e; 0x7f;
    0xe0; 0xe1; 0xe2; 0xe3; 0xe4; 0xe5; 0xe6; 0xe7; 0xe8; 0xe9; 0xea; 0xeb; 0xec; 0xed; 0xee; 0xef;
    0xf0; 0xf1; 0xf2; 0xf3; 0xf4; 0xf5; 0xf6; 0xf7; 0xf8; 0xf9; 0xfa; 0xfb; 0xfc; 0xfd; 0xfe; 0xff].

(** ** Various constants *)

(** A string literal as the list of its code points. *)
Definition py_str (s : string) : str :=
  map (fun a => Z.of_N (N_of_ascii a)) (list_ascii_of_string s).

Definition FILETYPES : list str :=
  [py_str "DEL"; py_str "SEQ"; py_str "PRG"; py_str "USR"; py_str "REL"].

(** ** PETSCII functions *)

(** [chr] and [ord] are the identity on code points. *)
Definition PETtoASC (line : bytes) : result str :=
  for_each (fun result x => c ← py_getitem PETtoASCtable x; Ok (result ++ [c]))
           line [].

Definition ASCtoPET (line : str) : result str :=
  for_each (fun result x => c ← py_getitem ASCtoPETtable x; Ok (result ++ [c]))
           line [].

Definition PETdelpadding (line : bytes) : bytes :=
  fold_left (fun result x => if x =? 0xA0 then result else result ++ [x])
            line [].

(** ** String methods used by the header *)

(** [s.ljust(width)]: pads with spaces on the right, never truncates. *)
Definition py_ljust (s : str) (width : Z) : str :=
  s ++ repeat 0x20 (Z.to_nat (width - Z.of_nat (length s))).

(** [str.upper] on one character of the Latin-1 range, the only characters
    a header holds (its literals and the entries of [PETtoASCtable]); code
    points from 0x100 on are left as they are. *)
Definition py_upper_char (c : Z) : str :=
  if (0x61 <=? c) && (c <=? 0x7A) then [c - 0x20]
  else if c =? 0xB5 then [0x39C]
  else if c =? 0xDF then [0x53; 0x53]
  else if c =? 0xF7 then [c]
  else if (0xE0 <=? c) && (c <=? 0xFE) then [c - 0x20]
  else if c =? 0xFF then [0x178]
  else [c].

Definition py_upper (s : str) : str := concat (map py_upper_char s).

(** ** BAM class: working with the BAM

    [self.bam] is the buffer the caller passed in; the methods below take
    it as their first argument, and the two that assign to it return it
    updated. *)

Definition getdiskname (bam : bytes) : result str :=
  PETtoASC (PETdelpadding (py_slice bam 0x90 0xA0)).

Definition getdiskident (bam : bytes) : result str :=
  PETtoASC (py_slice bam 0xA2 0xA4).

(** The double quote character, code point 0x22. *)
Definition dquote : str := [0x22].

Definition getheader (bam : bytes) : result str :=
  let header := py_str "0    " ++ dquote in
  name ← getdiskname bam;
  let header := header ++ py_ljust (name ++ dquote) 19 in
  ident ← getdiskident bam;
  let header := header ++ py_ljust ident 3 in
  dos ← PETtoASC (py_slice bam 0xA5 0xA7);
  let header := header ++ dos in
  Ok (py_upper header).

Definition getblocksfree (bam : bytes) : result Z :=
  for_each (fun blocksfree x =>
              if x =? 0x48 then Ok blocksfree
              else v ← py_getitem bam x; Ok (blocksfree + v))
           (py_range 0x04 0x90 0x04) 0.

Definition getallocated (bam : bytes) : result Z :=
  for_each (fun allocated x =>
              v ← py_getitem bam x; Ok (allocated + (getsectors (x / 4) - v)))
           (py_range 0x04 0x90 0x04) 0.

Definition blockisfree (bam : bytes) (track sector : Z) : result bool :=
  v ← py_getitem bam (4 * track + 1 + sector / 8);
  Ok (Z.land v (Z.shiftl 1 (sector mod 8)) >? 0).

Definition allocateblock (bam : bytes) (track sector : Z) : result bytes :=
  temp ← py_getitem bam (4 * track + 1 + sector / 8);
  let temp := Z.land temp (255 - Z.shiftl 1 (sector mod 8)) in
  bytearray_setitem bam (4 * track + 1 + sector / 8) temp.

Definition deallocateblock (bam : bytes) (track sector : Z) : result bytes :=
  temp ← py_getitem bam (4 * track + 1 + sector / 8);
  let temp := Z.lor temp (Z.shiftl 1 (sector mod 8)) in
  bytearray_setitem bam (4 * track + 1 + sector / 8) temp.

(** ** DIR class: working with the directory *)

(** One [file] dictionary of [filelist]; the key set is fixed. *)
Record file : Type := mkfile {
  file_base : Z;
  file_type : str;
  file_locked : bool;
  file_closed : bool;
  file_track : Z;
  file_sector : Z;
  file_name : str;
  file_size : Z
}.

Record Dir : Type := mkDir {
  dir_bam : bytes;
  dir_dir : bytes;
  title : str;
  ident : str;
  blocksfree : Z;
  header : str;
  filelist : list file
}.

(** [int.from_bytes(b, byteorder='little')] *)
Definition int_from_bytes_little (b : bytes) : Z :=
  fold_right (fun x acc => x + 256 * acc) 0 b.

(** The body of the loop of [dirpass] for one slot. *)
Definition dirpass_slot (dir : bytes) (filelist : list file) (ptr : Z)
  : result (list file) :=
  let base := 0x20 * ptr in
  t ← py_getitem dir (base + 0x02);
  if t >? 0 then
    t ← py_getitem dir (base + 0x02);
    type ← py_getitem FILETYPES (Z.land t 0x07);
    t ← py_getitem dir (base + 0x02);
    let locked := Z.land t 0x40 >? 0 in
    t ← py_getitem dir (base + 0x02);
    let closed := Z.land t 0x80 >? 0 in
    track ← py_getitem dir (base + 0x03);
    sector ← py_getitem dir (base + 0x04);
    name ← PETtoASC (PETdelpadding (py_slice dir (base + 0x05) (base + 0x15)));
    let size := int_from_bytes_little (py_slice dir (base + 0x1E) (base + 0x20)) in
    Ok (filelist ++ [mkfile base type locked closed track sector name size])
  else Ok filelist.

Definition dirpass (bam dir : bytes) : result Dir :=
  title ← getdiskname bam;
  ident ← getdiskident bam;
  blocksfree ← getblocksfree bam;
  header ← getheader bam;
  filelist ← for_each (dirpass_slot dir)
                      (py_range 0 (Z.of_nat (length dir) / 0x20) 1) [];
  Ok (mkDir bam dir title ident blocksfree header filelist).

(** [Dir(dirblocks)]: [dirblocks[:256]] is the BAM, [dirblocks[256:]] the
    directory slots. *)
Definition Dir_init (dirblocks : bytes) : result Dir :=
  let bam := py_slice dirblocks 0 256 in
  let dir := py_slice dirblocks 256 (Z.of_nat (length dirblocks)) in
  dirpass bam dir.

(** [BAM(bam)] stores the buffer and nothing else. *)
Definition BAM_init (bam : bytes) : result bytes := Ok bam.

(** ** Vocabulary of the specification *)

(** The byte of the BAM sector that holds the bitmap bit of a block. *)
Definition bitmap_offset (track sector : Z) : Z := 4 * track + 1 + sector / 8.

(** Valid geometry: a track of the drive and a sector that exists on it. *)
Definition valid_block (track sector : Z) : Prop :=
  1 <= track <= 40 /\ 0 <= sector < getsectors track.

(** A 256-byte sector buffer. *)
Definition sector_buffer (b : bytes) : Prop :=
  length b = 256%nat /\ bytes_ok b.

(** The boolean test of [bytes_ok], to check concrete buffers. *)
Definition bytes_okb (b : bytes) : bool :=
  forallb (fun x => (0 <=? x) && (x <? 256)) b.

(** Track 1 fully free: free-count byte 21 and the 21 bitmap bits set. *)
Definition track1_fully_free (bam : bytes) : Prop :=
  bam !! 4%nat = Some 21
  /\ forall s, 0 <= s < 21 ->
       exists v, bam !! Z.to_nat (bitmap_offset 1 s) = Some v
                 /\ Z.testbit v (s mod 8) = true.

(** The free-count bytes at offset [4*track] of tracks 1 to 35, track 18
    left out, summed. *)
Definition free_count_sum (bam : bytes) : Z :=
  fold_right Z.add 0
    (map (fun track => nth (Z.to_nat (4 * track)) bam 0)
         (List.filter (fun track => negb (track =? 18)) (py_range 1 36 1))).

(** What the PETSCII to ASCII to PETSCII round trip makes of byte [b]. *)
Definition round_trip_image (b : Z) : Z :=
  if b =? 0x09 then 0x20 else if 0xE0 <=? b then b - 0x40 else b.

(** The number of 32-byte slots of a directory buffer, and the type byte
    (offset [base + 0x02]) of slot [ptr]. *)
Definition slot_count (dir : bytes) : Z := Z.of_nat (length dir) / 0x20.

Definition slot_type_byte (dir : bytes) (ptr : Z) : Z :=
  nth (Z.to_nat (0x20 * ptr + 0x02)) dir 0.

(** The directory scenario: a BAM sector named TEST DISK with ID 8A, the
    name and the ID in the PETSCII that [ASCtoPET] gives for them, the name
    padded with 0xA0 to 16 bytes; and one directory sector whose first slot
    is a closed, unlocked PRG file HELLO of 5 blocks at track 17, sector 0,
    the seven other slots being empty. *)
Definition scenario_bam : bytes :=
  [18; 1; 0x41; 0] ++ repeat 0 140
  ++ [0xD4; 0xC5; 0xD3; 0xD4; 0x20; 0xC4; 0xC9; 0xD3; 0xCB] ++ repeat 0xA0 7
  ++ [0xA0; 0xA0] ++ [0x38; 0xC1] ++ [0xA0] ++ [0x32; 0xC1]
  ++ repeat 0xA0 4 ++ repeat 0 85.

Definition scenario_dir : bytes :=
  [0; 0xFF; 0x82; 17; 0] ++ [0xC8; 0xC5; 0xCC; 0xCC; 0xCF] ++ repeat 0xA0 11
  ++ repeat 0 9 ++ [5; 0]
  ++ repeat 0 224.

Definition scenario_dirblocks : bytes := scenario_bam ++ scenario_dir.

(** A formatted-disk BAM sector with every byte outside track 1 zero. *)
Definition bam_track1_free : bytes :=
  [0; 0; 0; 0; 21; 0xFF; 0xFF; 0x1F] ++ repeat 0 248.

(** ** Remove characters invalid for filenames

    [str.isspace] and [str.isalnum] are tables of the Unicode database of
    the interpreter; [cleanstring] is embedded over them as they come, and
    what is proved of it holds for every such pair of tests. *)

Section Cleanstring.
Variables isspace isalnum : Z -> bool.

(** [s.lstrip()] and [s.rstrip()] *)
Fixpoint py_lstrip (s : str) : str :=
  match s with
  | [] => []
  | c :: s' => if isspace c then py_lstrip s' else s
  end.

Definition py_rstrip (s : str) : str := rev (py_lstrip (rev s)).

(** [s.replace(old, new)] for one-character [old] and [new]. *)
Definition py_replace_char (old new : Z) (s : str) : str :=
  map (fun c => if c =? old then new else c) s.

Definition cleanstring (filename : str) : str :=
  let filename := py_replace_char 0x20 0x5F (py_rstrip (py_lstrip filename)) in
  List.filter (fun c => isalnum c || (c =? 0x5F) || (c =? 0x2D)) filename.
End Cleanstring.

(** The two tests on the ASCII code points, where they are
    [9..13, 28..32] and the digits and letters. *)
Definition ascii_isspace (c : Z) : bool :=
  ((9 <=? c) && (c <=? 13)) || ((28 <=? c) && (c <=? 32)).

Definition ascii_isalnum (c : Z) : bool :=
  ((0x30 <=? c) && (c <=? 0x39)) || ((0x41 <=? c) && (c <=? 0x5A))
  || ((0x61 <=? c) && (c <=? 0x7A)).

(** ** More vocabulary *)

(** The absolute number of sector 0 of a track, zone by zone. *)
Definition track_start (track : Z) : Z :=
  if track <? 18 then 21 * (track - 1)
  else if track <? 25 then 357 + 19 * (track - 18)
  else if track <? 31 then 490 + 18 * (track - 25)
  else 598 + 17 * (track - 31).

(** The position of a 256-byte buffer that the subscript
    [4*track + 1 + sector/8] denotes when it lies in [-256, 256): the offset
    itself, or the offset plus 256 when it is negative. *)
Definition bitmap_position (track sector : Z) : nat :=
  Z.to_nat (bitmap_offset track sector mod 256).

(** The free-count byte of a track, and the sum over tracks 1 to 35. *)
Definition free_count (bam : bytes) (track : Z) : Z :=
  nth (Z.to_nat (4 * track)) bam 0.

Definition free_count_total (bam : bytes) : Z :=
  fold_right Z.add 0 (map (free_count bam) (py_range 1 36 1)).

(** The entries of the two tables for a byte and for a code point. *)
Definition pet_decode (x : Z) : Z := nth (Z.to_nat x) PETtoASCtable 0.

Definition asc_encode (c : Z) : Z := nth (Z.to_nat c) ASCtoPETtable 0.

(** What [dirpass] reads from slot [ptr] of [dir] into the entry [f]. *)
Definition entry_of_slot (dir : bytes) (ptr : Z) (f : file) : Prop :=
  let base := 0x20 * ptr in
  let t := slot_type_byte dir ptr in
  file_base f = base
  /\ t <> 0
  /\ py_getitem FILETYPES (Z.land t 0x07) = Ok (file_type f)
  /\ file_locked f = Z.testbit t 6
  /\ file_closed f = Z.testbit t 7
  /\ file_track f = nth (Z.to_nat (base + 0x03)) dir 0
  /\ file_sector f = nth (Z.to_nat (base + 0x04)) dir 0
  /\ file_name f
     = map pet_decode (PETdelpadding (py_slice dir (base + 0x05) (base + 0x15)))
  /\ file_size f
     = nth (Z.to_nat (base + 0x1E)) dir 0
       + 256 * nth (Z.to_nat (base + 0x1F)) dir 0.

(** The ranges of the fields of an entry. *)
Definition entry_in_range (f : file) : Prop :=
  In (file_type f) FILETYPES
  /\ 0 <= file_track f < 256 /\ 0 <= file_sector f < 256
  /\ 0 <= file_size f < 65536
  /\ (length (file_name f) <= 16)%nat.

(** A string of code points, as every Python [str] is. *)
Definition str_ok (s : str) : Prop := Forall (fun c => 0 <= c < 0x110000) s.

(** The code points and bytes the two tables carry back unchanged. *)
Definition round_trips (c : Z) : Prop := 0 <= c < 0xE0 /\ c <> 0x09.

Definition round_tripsb (c : Z) : bool :=
  (0 <=? c) && (c <? 0xE0) && negb (c =? 0x09).

(** * Properties *)

(** ** Subscription and ranges *)

Section Subscription.
Context {A : Type}.
Implicit Types (l : list A) (i : Z).

Lemma py_index_nonneg (len i : Z) :
  0 <= i < len -> py_index len i = Ok (Z.to_nat i).
Proof.
  intros Hi. unfold py_index.
  destruct (Z.ltb_spec i 0); [lia|].
  destruct (Z.leb_spec 0 i); [|lia].
  destruct (Z.ltb_spec i len); [reflexivity|lia].
Qed.

Lemma py_index_neg (len i : Z) :
  - len <= i < 0 -> py_index len i = Ok (Z.to_nat (i + len)).
Proof.
  intros Hi. unfold py_index.
  destruct (Z.ltb_spec i 0); [|lia].
  destruct (Z.leb_spec 0 (i + len)); [|lia].
  destruct (Z.ltb_spec (i + len) len); [reflexivity|lia].
Qed.

Lemma py_index_out (len i : Z) :
  0 <= len -> i < - len \/ len <= i -> py_index len i = Raise IndexError.
Proof.
  intros Hlen Hi. unfold py_index.
  destruct (Z.ltb_spec i 0).
  - destruct (Z.leb_spec 0 (i + len)); [|reflexivity].
    destruct (Z.ltb_spec (i + len) len); [lia|reflexivity].
  - destruct (Z.leb_spec 0 i); [|reflexivity].
    destruct (Z.ltb_spec i len); [lia|reflexivity].
Qed.

Lemma py_index_lt (len i : Z) (k : nat) :
  py_index len i = Ok k -> (Z.of_nat k < len) /\ - len <= i < len.
Proof.
  unfold py_index.
  destruct (Z.ltb_spec i 0);
    match goal with |- context [0 <=? ?j] =>
      destruct (Z.leb_spec 0 j); [destruct (Z.ltb_spec j len)|]
    end; simpl; intros [= <-]; lia.
Qed.

Lemma py_getitem_nonneg l i :
  0 <= i < Z.of_nat (length l) ->
  exists v, l !! Z.to_nat i = Some v /\ py_getitem l i = Ok v.
Proof.
  intros Hi. unfold py_getitem. rewrite py_index_nonneg by exact Hi. simpl.
  destruct (lookup_lt_is_Some_2 l (Z.to_nat i)) as [v Hv]; [lia|].
  exists v. rewrite Hv. auto.
Qed.

Lemma py_getitem_neg l i :
  - Z.of_nat (length l) <= i < 0 ->
  exists v, l !! Z.to_nat (i + Z.of_nat (length l)) = Some v
            /\ py_getitem l i = Ok v.
Proof.
  intros Hi. unfold py_getitem. rewrite py_index_neg by exact Hi. simpl.
  destruct (lookup_lt_is_Some_2 l (Z.to_nat (i + Z.of_nat (length l))))
    as [v Hv]; [lia|].
  exists v. rewrite Hv. auto.
Qed.

Lemma py_getitem_out l i :
  i < - Z.of_nat (length l) \/ Z.of_nat (length l) <= i ->
  py_getitem l i = Raise IndexError.
Proof.
  intros Hi. unfold py_getitem. rewrite py_index_out by (lia || exact Hi).
  reflexivity.
Qed.

Lemma py_getitem_Ok l i v :
  py_getitem l i = Ok v ->
  exists k, py_index (Z.of_nat (length l)) i = Ok k /\ l !! k = Some v.
Proof.
  unfold py_getitem.
  destruct (py_index (Z.of_nat (length l)) i) as [k|e]; simpl; [|discriminate].
  destruct (l !! k) as [w|] eqn:Hk; intros [= <-]. eauto.
Qed.
End Subscription.

Lemma range_from_snoc (n : nat) (start step : Z) :
  range_from (S n) start step
  = range_from n start step ++ [start + Z.of_nat n * step].
Proof.
  revert start. induction n as [|n IH]; intros start.
  - simpl. f_equal. lia.
  - change (range_from (S (S n)) start step)
      with (start :: range_from (S n) (start + step) step).
    rewrite IH.
    replace (start + step + Z.of_nat n * step)
      with (start + Z.of_nat (S n) * step) by lia.
    reflexivity.
Qed.

Lemma py_range_succ (t : Z) :
  1 <= t -> py_range 1 (t + 1) 1 = py_range 1 t 1 ++ [t].
Proof.
  intros Ht. unfold py_range. rewrite !Z.div_1_r.
  replace (Z.to_nat (t + 1 - 1 + 1 - 1)) with (S (Z.to_nat (t - 1 + 1 - 1)))
    by lia.
  rewrite range_from_snoc. do 2 f_equal. lia.
Qed.

(** ** Geometry *)

(** C9: the four zones of [getsectors], and 0 outside tracks 1 to 40. *)
Theorem getsectors_zones (track : Z) :
  (1 <= track <= 17 -> getsectors track = 21)
  /\ (18 <= track <= 24 -> getsectors track = 19)
  /\ (25 <= track <= 30 -> getsectors track = 18)
  /\ (31 <= track <= 40 -> getsectors track = 17)
  /\ (track < 1 \/ track > 40 -> getsectors track = 0).
Proof.
  unfold getsectors.
  destruct (Z.ltb_spec track 1); [repeat split; intros; (reflexivity || lia)|].
  destruct (Z.ltb_spec track 18); [repeat split; intros; (reflexivity || lia)|].
  destruct (Z.ltb_spec track 25); [repeat split; intros; (reflexivity || lia)|].
  destruct (Z.ltb_spec track 31); [repeat split; intros; (reflexivity || lia)|].
  destruct (Z.ltb_spec track 41); repeat split; intros; (reflexivity || lia).
Qed.

Lemma getsectors_zones_witness :
  getsectors 17 = 21 /\ getsectors 18 = 19 /\ getsectors 30 = 18
  /\ getsectors 40 = 17 /\ getsectors 41 = 0.
Proof.
  refine (conj _ (conj _ (conj _ (conj _ _)))).
  - apply (proj1 (getsectors_zones 17)); lia.
  - apply (proj1 (proj2 (getsectors_zones 18))); lia.
  - apply (proj1 (proj2 (proj2 (getsectors_zones 30)))); lia.
  - apply (proj1 (proj2 (proj2 (proj2 (getsectors_zones 40))))); lia.
  - apply (proj2 (proj2 (proj2 (proj2 (getsectors_zones 41))))); lia.
Defined.

Lemma getsectornumber_sector (track sector : Z) :
  getsectornumber track sector = getsectornumber track 0 + sector.
Proof. unfold getsectornumber. lia. Qed.

Lemma getsectornumber_next_track (track : Z) :
  1 <= track ->
  getsectornumber (track + 1) 0 = getsectornumber track 0 + getsectors track.
Proof.
  intros Ht. unfold getsectornumber.
  rewrite py_range_succ by exact Ht.
  rewrite fold_left_app. simpl. lia.
Qed.

(** C10: the absolute sector number is linear in the sector and additive
    across tracks. *)
Theorem getsectornumber_linear_additive (t s : Z) :
  1 <= t ->
  getsectornumber t s = getsectornumber t 0 + s
  /\ getsectornumber (t + 1) 0 = getsectornumber t 0 + getsectors t.
Proof.
  intros Ht. split.
  - apply getsectornumber_sector.
  - apply getsectornumber_next_track, Ht.
Qed.

Lemma getsectornumber_linear_additive_witness :
  getsectornumber 18 5 = getsectornumber 18 0 + 5
  /\ getsectornumber (18 + 1) 0 = getsectornumber 18 0 + getsectors 18.
Proof. apply (getsectornumber_linear_additive 18 5). lia. Defined.

(** ** Bits of a byte *)

Lemma byte_testbit_high (v j : Z) :
  0 <= v < 256 -> 8 <= j -> Z.testbit v j = false.
Proof.
  intros Hv Hj.
  rewrite <- (Z.mod_small v (2 ^ 8)) by (change (2 ^ 8) with 256; lia).
  apply Z.mod_pow2_bits_high. lia.
Qed.

Lemma byte_of_bits (x : Z) :
  0 <= x -> (forall j, 8 <= j -> Z.testbit x j = false) -> 0 <= x < 256.
Proof.
  intros Hx Hbits. split; [exact Hx|].
  assert (x = x mod 2 ^ 8) as ->.
  { apply Z.bits_inj'. intros n Hn. destruct (Z.lt_ge_cases n 8).
    - now rewrite Z.mod_pow2_bits_low.
    - rewrite Z.mod_pow2_bits_high by lia. now apply Hbits. }
  apply Z.mod_pos_bound. reflexivity.
Qed.

Lemma testbit_mask (k j : Z) :
  0 <= k -> Z.testbit (Z.shiftl 1 k) j = (k =? j).
Proof. intros Hk. rewrite Z.shiftl_1_l. now apply Z.pow2_bits_eqb. Qed.

(** [v & (1 << k) > 0] tests bit [k] of [v]. *)
Lemma land_mask_gtb (v k : Z) :
  0 <= k -> (Z.land v (Z.shiftl 1 k) >? 0) = Z.testbit v k.
Proof.
  intros Hk.
  assert (Z.land v (Z.shiftl 1 k) = if Z.testbit v k then 2 ^ k else 0) as ->.
  { apply Z.bits_inj'. intros n Hn.
    rewrite Z.land_spec, testbit_mask by exact Hk.
    destruct (Z.eqb_spec k n) as [<-|Hne].
    - rewrite andb_true_r. destruct (Z.testbit v k) eqn:E.
      + now rewrite Z.pow2_bits_true.
      + now rewrite Z.bits_0.
    - rewrite andb_false_r. destruct (Z.testbit v k).
      + now rewrite Z.pow2_bits_false.
      + now rewrite Z.bits_0. }
  rewrite Z.gtb_ltb. destruct (Z.testbit v k).
  - apply Z.ltb_lt, Z.pow_pos_nonneg; lia.
  - reflexivity.
Qed.

Lemma clear_mask_ldiff (k : Z) :
  0 <= k < 8 -> 255 - Z.shiftl 1 k = Z.ldiff 255 (Z.shiftl 1 k).
Proof.
  intros Hk. apply Z.sub_nocarry_ldiff.
  apply Z.bits_inj'. intros n Hn.
  rewrite Z.ldiff_spec, testbit_mask, Z.bits_0 by lia.
  destruct (Z.eqb_spec k n) as [<-|]; [|reflexivity].
  change 255 with (Z.ones 8). rewrite Z.ones_spec_low by lia. reflexivity.
Qed.

(** [v & (255 - (1 << k))] is [v] with bit [k] cleared. *)
Lemma testbit_clear (v k j : Z) :
  0 <= v < 256 -> 0 <= k < 8 ->
  Z.testbit (Z.land v (255 - Z.shiftl 1 k)) j
  = if j =? k then false else Z.testbit v j.
Proof.
  intros Hv Hk. destruct (Z.lt_ge_cases j 0) as [Hj|Hj].
  { rewrite !Z.testbit_neg_r by lia. destruct (j =? k); reflexivity. }
  rewrite clear_mask_ldiff, Z.land_spec, Z.ldiff_spec, testbit_mask by lia.
  change 255 with (Z.ones 8). rewrite Z.testbit_ones_nonneg by lia.
  rewrite (Z.eqb_sym k j). destruct (Z.eqb_spec j k) as [->|Hne]; simpl.
  - rewrite !andb_false_r. reflexivity.
  - rewrite andb_true_r. destruct (Z.ltb_spec j 8).
    + apply andb_true_r.
    + rewrite byte_testbit_high by lia. reflexivity.
Qed.

(** [v | (1 << k)] is [v] with bit [k] set. *)
Lemma testbit_set (v k j : Z) :
  0 <= k ->
  Z.testbit (Z.lor v (Z.shiftl 1 k)) j
  = if j =? k then true else Z.testbit v j.
Proof.
  intros Hk. rewrite Z.lor_spec, testbit_mask by exact Hk.
  rewrite (Z.eqb_sym k j). destruct (j =? k).
  - apply orb_true_r.
  - apply orb_false_r.
Qed.

Lemma clear_is_byte (v k : Z) :
  0 <= v < 256 -> 0 <= k < 8 -> 0 <= Z.land v (255 - Z.shiftl 1 k) < 256.
Proof.
  intros Hv Hk. apply byte_of_bits.
  - apply Z.land_nonneg. left. lia.
  - intros j Hj. rewrite testbit_clear by assumption.
    destruct (j =? k); [reflexivity|]. apply byte_testbit_high; lia.
Qed.

Lemma set_is_byte (v k : Z) :
  0 <= v < 256 -> 0 <= k < 8 -> 0 <= Z.lor v (Z.shiftl 1 k) < 256.
Proof.
  intros Hv Hk. apply byte_of_bits.
  - apply Z.lor_nonneg. split; [lia|]. rewrite Z.shiftl_1_l.
    apply Z.pow_nonneg. lia.
  - intros j Hj. rewrite testbit_set by lia.
    destruct (Z.eqb_spec j k); [lia|]. apply byte_testbit_high; lia.
Qed.

Lemma sector_bit_range (sector : Z) : 0 <= sector mod 8 < 8.
Proof. apply Z.mod_pos_bound. lia. Qed.

(** Clearing or setting a bit a second time changes nothing, and setting a
    bit that was set before it was cleared gives the byte back. *)
Lemma clear_clear (v k : Z) :
  Z.land (Z.land v (255 - Z.shiftl 1 k)) (255 - Z.shiftl 1 k)
  = Z.land v (255 - Z.shiftl 1 k).
Proof. rewrite <- Z.land_assoc, Z.land_diag. reflexivity. Qed.

Lemma set_set (v k : Z) :
  Z.lor (Z.lor v (Z.shiftl 1 k)) (Z.shiftl 1 k) = Z.lor v (Z.shiftl 1 k).
Proof. rewrite <- Z.lor_assoc, Z.lor_diag. reflexivity. Qed.

Lemma clear_then_set (v k : Z) :
  0 <= v < 256 -> 0 <= k < 8 -> Z.testbit v k = true ->
  Z.lor (Z.land v (255 - Z.shiftl 1 k)) (Z.shiftl 1 k) = v.
Proof.
  intros Hv Hk Hbit. apply Z.bits_inj'. intros j Hj.
  rewrite testbit_set, testbit_clear by lia.
  destruct (Z.eqb_spec j k) as [->|]; congruence.
Qed.

(** ** Buffers *)

Lemma bytes_okb_ok (b : bytes) : bytes_okb b = true -> bytes_ok b.
Proof.
  unfold bytes_okb, bytes_ok. rewrite forallb_forall, Forall_forall.
  intros H x Hx. apply list_elem_of_In, H in Hx. lia.
Qed.

Lemma bytes_ok_lookup (b : bytes) (k : nat) (v : Z) :
  bytes_ok b -> b !! k = Some v -> 0 <= v < 256.
Proof. intros Hok Hk. exact (Forall_lookup_1 _ _ _ _ Hok Hk). Qed.

Lemma py_index_lookup {A : Type} (l : list A) (i : Z) (k : nat) :
  py_index (Z.of_nat (length l)) i = Ok k -> exists v, l !! k = Some v.
Proof.
  intros Hk. apply py_index_lt in Hk as [Hk _].
  destruct (lookup_lt_is_Some_2 l k) as [v Hv]; [lia|]. eauto.
Qed.

Lemma py_getitem_at {A : Type} (l : list A) (i : Z) (k : nat) (v : A) :
  py_index (Z.of_nat (length l)) i = Ok k -> l !! k = Some v ->
  py_getitem l i = Ok v.
Proof. intros Hi Hk. unfold py_getitem. rewrite Hi. simpl. now rewrite Hk. Qed.

Lemma py_getitem_Raise {A : Type} (l : list A) (i : Z) (e : exn) :
  py_getitem l i = Raise e ->
  e = IndexError /\ py_index (Z.of_nat (length l)) i = Raise IndexError.
Proof.
  unfold py_getitem.
  destruct (py_index (Z.of_nat (length l)) i) as [k|e'] eqn:Hi; simpl.
  - destruct (py_index_lookup l i k Hi) as [v ->]. discriminate.
  - intros [= ->]. revert Hi. unfold py_index.
    destruct (_ && _); [discriminate|]. intros [= <-]. auto.
Qed.

Lemma py_getitem_insert_eq (l : bytes) (i : Z) (k : nat) (v : Z) :
  py_index (Z.of_nat (length l)) i = Ok k ->
  py_getitem (<[k := v]> l) i = Ok v.
Proof.
  intros Hi. apply (py_getitem_at _ _ k).
  - now rewrite length_insert.
  - apply list_lookup_insert_eq. apply py_index_lt in Hi. lia.
Qed.

Lemma py_getitem_insert_ne (l : bytes) (i : Z) (j k : nat) (v : Z) :
  py_index (Z.of_nat (length l)) i = Ok j -> j <> k ->
  py_getitem (<[k := v]> l) i = py_getitem l i.
Proof.
  intros Hi Hne. unfold py_getitem. rewrite length_insert, Hi. simpl.
  rewrite list_lookup_insert_ne by auto. reflexivity.
Qed.

Lemma bytearray_setitem_at (b : bytes) (i v : Z) (k : nat) :
  py_index (Z.of_nat (length b)) i = Ok k -> 0 <= v < 256 ->
  bytearray_setitem b i v = Ok (<[k := v]> b).
Proof.
  intros Hi Hv. unfold bytearray_setitem. rewrite Hi. simpl.
  destruct (Z.leb_spec 0 v); [|lia]. destruct (Z.ltb_spec v 256); [|lia].
  reflexivity.
Qed.

(** ** Block operations of the BAM *)

Section BlockOps.
Variable bam : bytes.
Variables track sector : Z.
Hypothesis bam_ok : bytes_ok bam.

Let off := bitmap_offset track sector.
Let bit := sector mod 8.

(** When the subscript denotes position [k], holding [v]: *)
Variables (k : nat) (v : Z).
Hypothesis off_at : py_index (Z.of_nat (length bam)) off = Ok k.
Hypothesis bam_at : bam !! k = Some v.

Lemma blockisfree_at : blockisfree bam track sector = Ok (Z.testbit v bit).
Proof.
  unfold blockisfree. fold (bitmap_offset track sector). fold off.
  rewrite (py_getitem_at bam off k v off_at bam_at). simpl.
  rewrite land_mask_gtb by apply sector_bit_range. reflexivity.
Qed.

Lemma allocateblock_at :
  allocateblock bam track sector
  = Ok (<[k := Z.land v (255 - Z.shiftl 1 bit)]> bam).
Proof.
  unfold allocateblock. fold (bitmap_offset track sector). fold off.
  rewrite (py_getitem_at bam off k v off_at bam_at). simpl.
  apply bytearray_setitem_at; [exact off_at|].
  apply clear_is_byte; [eapply bytes_ok_lookup; eauto|apply sector_bit_range].
Qed.

Lemma deallocateblock_at :
  deallocateblock bam track sector
  = Ok (<[k := Z.lor v (Z.shiftl 1 bit)]> bam).
Proof.
  unfold deallocateblock. fold (bitmap_offset track sector). fold off.
  rewrite (py_getitem_at bam off k v off_at bam_at). simpl.
  apply bytearray_setitem_at; [exact off_at|].
  apply set_is_byte; [eapply bytes_ok_lookup; eauto|apply sector_bit_range].
Qed.
End BlockOps.

Lemma block_ops_raise (bam : bytes) (track sector : Z) (e : exn) :
  py_index (Z.of_nat (length bam)) (bitmap_offset track sector) = Raise e ->
  blockisfree bam track sector = Raise e
  /\ allocateblock bam track sector = Raise e
  /\ deallocateblock bam track sector = Raise e.
Proof.
  intros Hi. unfold blockisfree, allocateblock, deallocateblock, py_getitem.
  fold (bitmap_offset track sector). rewrite Hi. auto.
Qed.

Lemma sector_buffer_insert (bam : bytes) (k : nat) (v : Z) :
  sector_buffer bam -> 0 <= v < 256 -> sector_buffer (<[k := v]> bam).
Proof.
  intros [Hlen Hok] Hv. split.
  - now rewrite length_insert.
  - now apply Forall_insert.
Qed.

(** C4: [blockisfree] reads bit [sector mod 8] of the byte at offset
    [4*track + 1 + sector/8]; [allocateblock] clears exactly that bit and
    [deallocateblock] sets exactly that bit, every other bit and byte of the
    buffer staying as it was; doing either a second time succeeds and
    changes nothing. *)
Theorem bam_bit_operations (bam : bytes) (track sector : Z) :
  sector_buffer bam ->
  let off := bitmap_offset track sector in
  let bit := sector mod 8 in
  blockisfree bam track sector = (v ← py_getitem bam off; Ok (Z.testbit v bit))
  /\ (- 256 <= off < 256 -> exists v, py_getitem bam off = Ok v)
  /\ forall v, py_getitem bam off = Ok v ->
       exists k, py_index 256 off = Ok k /\ bam !! k = Some v
       /\ (exists v',
             allocateblock bam track sector = Ok (<[k := v']> bam)
             /\ (forall j, Z.testbit v' j
                           = if j =? bit then false else Z.testbit v j)
             /\ allocateblock (<[k := v']> bam) track sector
                = Ok (<[k := v']> bam))
       /\ (exists v',
             deallocateblock bam track sector = Ok (<[k := v']> bam)
             /\ (forall j, Z.testbit v' j
                           = if j =? bit then true else Z.testbit v j)
             /\ deallocateblock (<[k := v']> bam) track sector
                = Ok (<[k := v']> bam)).
Proof.
  intros [Hlen Hok] off bit.
  assert (Hlen' : Z.of_nat (length bam) = 256) by lia.
  split; [|split].
  - unfold blockisfree. fold (bitmap_offset track sector). fold off.
    destruct (py_getitem bam off) as [v|e]; simpl; [|reflexivity].
    rewrite land_mask_gtb by apply sector_bit_range. reflexivity.
  - intros Hoff. destruct (Z.lt_ge_cases off 0).
    + destruct (py_getitem_neg bam off) as (v & _ & Hv); [lia|eauto].
    + destruct (py_getitem_nonneg bam off) as (v & _ & Hv); [lia|eauto].
  - intros v Hv. apply py_getitem_Ok in Hv as (k & Hk & Hkv).
    assert (Hbv : 0 <= v < 256) by (eapply bytes_ok_lookup; eauto).
    pose proof (sector_bit_range sector) as Hbit. fold bit in Hbit.
    assert (Hkl : (k < length bam)%nat) by (eapply lookup_lt_Some; eauto).
    exists k. rewrite <- Hlen'. split; [exact Hk|]. split; [exact Hkv|]. split.
    + exists (Z.land v (255 - Z.shiftl 1 bit)). split; [|split].
      * apply allocateblock_at; assumption.
      * intros j. apply testbit_clear; assumption.
      * rewrite (allocateblock_at _ track sector
                   ltac:(apply Forall_insert; [exact Hok|now apply clear_is_byte])
                   k (Z.land v (255 - Z.shiftl 1 bit))).
        -- fold bit. rewrite clear_clear.
           now rewrite list_insert_insert_eq.
        -- now rewrite length_insert.
        -- now apply list_lookup_insert_eq.
    + exists (Z.lor v (Z.shiftl 1 bit)). split; [|split].
      * apply deallocateblock_at; assumption.
      * intros j. apply testbit_set. lia.
      * rewrite (deallocateblock_at _ track sector
                   ltac:(apply Forall_insert; [exact Hok|now apply set_is_byte])
                   k (Z.lor v (Z.shiftl 1 bit))).
        -- fold bit. rewrite set_set.
           now rewrite list_insert_insert_eq.
        -- now rewrite length_insert.
        -- now apply list_lookup_insert_eq.
Qed.

Lemma range_from_In (n : nat) (start x : Z) :
  start <= x < start + Z.of_nat n -> In x (range_from n start 1).
Proof.
  revert start. induction n as [|n IH]; intros start Hx; [lia|].
  simpl. destruct (Z.eq_dec start x); [now left|right]. apply IH. lia.
Qed.

(** A check over [range(lo, hi)] holds at every integer of the range. *)
Lemma forallb_range (P : Z -> bool) (lo hi : Z) :
  forallb P (py_range lo hi 1) = true -> forall x, lo <= x < hi -> P x = true.
Proof.
  intros H x Hx. rewrite forallb_forall in H. apply H.
  unfold py_range. apply range_from_In. rewrite Z.div_1_r. lia.
Qed.

Lemma bam_track1_free_buffer : sector_buffer bam_track1_free.
Proof. split; [reflexivity|]. apply bytes_okb_ok. reflexivity. Qed.

Lemma bam_track1_free_free : track1_fully_free bam_track1_free.
Proof.
  split; [reflexivity|]. intros s Hs.
  pose (P := fun s => match bam_track1_free !! Z.to_nat (bitmap_offset 1 s) with
                      | Some v => Z.testbit v (s mod 8)
                      | None => false
                      end).
  assert (HP : P s = true).
  { apply (forallb_range P 0 21); [vm_compute; reflexivity|lia]. }
  unfold P in HP.
  destruct (bam_track1_free !! Z.to_nat (bitmap_offset 1 s)) as [v|];
    [eauto|discriminate].
Qed.

Lemma bam_bit_operations_witness :
  blockisfree bam_track1_free 1 0
  = (v ← py_getitem bam_track1_free (bitmap_offset 1 0);
     Ok (Z.testbit v (0 mod 8))).
Proof.
  exact (proj1 (bam_bit_operations bam_track1_free 1 0 bam_track1_free_buffer)).
Defined.

Lemma getsectors_le_21 (track : Z) : 0 <= getsectors track <= 21.
Proof.
  unfold getsectors.
  repeat match goal with |- context [?a <? ?b] => destruct (a <? b) end; lia.
Qed.

Lemma valid_block_offset (track sector : Z) :
  valid_block track sector ->
  5 <= bitmap_offset track sector < 256
  /\ 4 * track < bitmap_offset track sector.
Proof.
  intros [Ht Hs]. pose proof (getsectors_le_21 track) as Hg.
  assert (0 <= sector / 8 < 3).
  { split; [apply Z.div_pos; lia|]. apply Z.div_lt_upper_bound; lia. }
  unfold bitmap_offset. lia.
Qed.

(** C7: in valid geometry [allocateblock] and [deallocateblock] succeed and
    leave every byte other than the bitmap byte at [4*track + 1 + sector/8]
    as it was, the free-count byte at [4*track] among them. *)
Theorem bam_frame (bam : bytes) (track sector : Z) :
  sector_buffer bam -> valid_block track sector ->
  exists a d,
    allocateblock bam track sector = Ok a
    /\ deallocateblock bam track sector = Ok d
    /\ length a = 256%nat /\ length d = 256%nat
    /\ (forall i, 0 <= i < 256 -> i <> bitmap_offset track sector ->
          py_getitem a i = py_getitem bam i
          /\ py_getitem d i = py_getitem bam i)
    /\ py_getitem a (4 * track) = py_getitem bam (4 * track)
    /\ py_getitem d (4 * track) = py_getitem bam (4 * track)
    /\ exists count, py_getitem bam (4 * track) = Ok count.
Proof.
  intros [Hlen Hok] Hvalid.
  pose proof (valid_block_offset track sector Hvalid) as [Hoff Hcnt].
  assert (Hlen' : Z.of_nat (length bam) = 256) by lia.
  set (off := bitmap_offset track sector) in *.
  assert (Hi : py_index (Z.of_nat (length bam)) off = Ok (Z.to_nat off))
    by (apply py_index_nonneg; lia).
  destruct (py_index_lookup bam off _ Hi) as [v Hv].
  assert (Hframe : forall i w, 0 <= i < 256 -> i <> off ->
            py_getitem (<[Z.to_nat off := w]> bam) i = py_getitem bam i).
  { intros i w Hr Hne. apply (py_getitem_insert_ne bam i (Z.to_nat i)).
    - apply py_index_nonneg. lia.
    - lia. }
  exists (<[Z.to_nat off := Z.land v (255 - Z.shiftl 1 (sector mod 8))]> bam),
         (<[Z.to_nat off := Z.lor v (Z.shiftl 1 (sector mod 8))]> bam).
  split; [now apply allocateblock_at|].
  split; [now apply deallocateblock_at|].
  rewrite !length_insert.
  destruct Hvalid as [Ht _].
  repeat split; try assumption; try (apply Hframe; lia).
  destruct (py_getitem_nonneg bam (4 * track)) as (c & _ & Hc); [lia|eauto].
Qed.

Lemma bam_frame_witness :
  exists a d,
    allocateblock bam_track1_free 1 0 = Ok a
    /\ deallocateblock bam_track1_free 1 0 = Ok d
    /\ length a = 256%nat /\ length d = 256%nat
    /\ (forall i, 0 <= i < 256 -> i <> bitmap_offset 1 0 ->
          py_getitem a i = py_getitem bam_track1_free i
          /\ py_getitem d i = py_getitem bam_track1_free i)
    /\ py_getitem a (4 * 1) = py_getitem bam_track1_free (4 * 1)
    /\ py_getitem d (4 * 1) = py_getitem bam_track1_free (4 * 1)
    /\ exists count, py_getitem bam_track1_free (4 * 1) = Ok count.
Proof.
  apply (bam_frame bam_track1_free 1 0 bam_track1_free_buffer).
  split; [lia|]. change (getsectors 1) with 21. lia.
Defined.

(** C1, as the specification words it, fails: on a sector whose track 1 is
    fully free, [deallocateblock 1 0] leaves [blockisfree 1 0] true. *)
Lemma bam_deallocate_then_free :
  sector_buffer bam_track1_free /\ track1_fully_free bam_track1_free
  /\ (d ← deallocateblock bam_track1_free 1 0; blockisfree d 1 0) = Ok true
  /\ (d ← deallocateblock bam_track1_free 1 0; blockisfree d 1 0) <> Ok false.
Proof.
  split; [exact bam_track1_free_buffer|].
  split; [exact bam_track1_free_free|].
  split; [vm_compute; reflexivity|].
  vm_compute. discriminate.
Qed.

(** C1, amended: with track 1 fully free, [deallocateblock 1 0] leaves block
    (1, 0) free, [allocateblock 1 0] makes [blockisfree 1 0] false, and
    [allocateblock 1 0] followed by [deallocateblock 1 0] gives back the
    sector unchanged. *)
Theorem bam_track1_round_trip (bam : bytes) :
  sector_buffer bam -> track1_fully_free bam ->
  (d ← deallocateblock bam 1 0; blockisfree d 1 0) = Ok true
  /\ (a ← allocateblock bam 1 0; blockisfree a 1 0) = Ok false
  /\ (a ← allocateblock bam 1 0; deallocateblock a 1 0) = Ok bam.
Proof.
  intros [Hlen Hok] [_ Hbits].
  destruct (Hbits 0) as (v & Hv & Hbit); [lia|].
  change (Z.to_nat (bitmap_offset 1 0)) with 5%nat in Hv.
  change (0 mod 8) with 0 in Hbit.
  assert (Hb : 0 <= v < 256) by (eapply bytes_ok_lookup; eauto).
  assert (Hi : forall w, py_index (Z.of_nat (length (<[5%nat := w]> bam)))
                           (bitmap_offset 1 0) = Ok 5%nat).
  { intros w. rewrite length_insert, Hlen. reflexivity. }
  assert (Hi0 : py_index (Z.of_nat (length bam)) (bitmap_offset 1 0) = Ok 5%nat)
    by (rewrite Hlen; reflexivity).
  assert (Hat : forall w, <[5%nat := w]> bam !! 5%nat = Some w).
  { intros w. apply list_lookup_insert_eq. lia. }
  rewrite (deallocateblock_at bam 1 0 Hok 5 v Hi0 Hv).
  rewrite (allocateblock_at bam 1 0 Hok 5 v Hi0 Hv).
  change (0 mod 8) with 0. cbn [mbind result_bind].
  pose proof (clear_is_byte v 0 Hb ltac:(lia)) as Hclr.
  pose proof (set_is_byte v 0 Hb ltac:(lia)) as Hset.
  split; [|split].
  - rewrite (blockisfree_at _ 1 0 5 _ (Hi _) (Hat _)).
    change (0 mod 8) with 0. rewrite testbit_set by lia. reflexivity.
  - rewrite (blockisfree_at _ 1 0 5 _ (Hi _) (Hat _)).
    change (0 mod 8) with 0. rewrite testbit_clear by lia. reflexivity.
  - rewrite (deallocateblock_at _ 1 0 (Forall_insert _ _ _ _ Hok Hclr)
               5 _ (Hi _) (Hat _)).
    change (0 mod 8) with 0.
    rewrite clear_then_set by (assumption || lia).
    rewrite list_insert_insert_eq, list_insert_id by exact Hv. reflexivity.
Qed.

Lemma bam_track1_round_trip_witness :
  (d ← deallocateblock bam_track1_free 1 0; blockisfree d 1 0) = Ok true
  /\ (a ← allocateblock bam_track1_free 1 0; blockisfree a 1 0) = Ok false
  /\ (a ← allocateblock bam_track1_free 1 0; deallocateblock a 1 0)
     = Ok bam_track1_free.
Proof.
  exact (bam_track1_round_trip bam_track1_free
           bam_track1_free_buffer bam_track1_free_free).
Defined.

(** C8, as the specification words it, fails: tracks outside 1..40 whose
    bitmap offset still falls inside the 256 bytes complete on that byte.
    Track 0 reads byte 1, track 41 writes byte 165 (inside the disk name),
    and track -1 wraps around to byte 253. *)
Lemma bam_out_of_geometry_completes :
  sector_buffer bam_track1_free
  /\ (0 < 1 /\ blockisfree bam_track1_free 0 0 = Ok false)
  /\ (41 > 40 /\ deallocateblock bam_track1_free 41 0
                 = Ok (<[165%nat := 1]> bam_track1_free))
  /\ (-1 < 1 /\ deallocateblock bam_track1_free (-1) 0
                = Ok (<[253%nat := 1]> bam_track1_free)).
Proof.
  split; [exact bam_track1_free_buffer|].
  repeat split; try lia; vm_compute; reflexivity.
Qed.

(** C8, amended: on a 256-byte buffer the three block operations raise
    [IndexError] exactly when the offset [4*track + 1 + sector/8] lies
    outside [-256, 256); inside it they complete on the byte the subscript
    denotes.  For a sector of the 24-bit bitmap that is every track below
    -64 or above 63. *)
Theorem bam_subscript_errors (bam : bytes) (track sector : Z) :
  sector_buffer bam ->
  let off := bitmap_offset track sector in
  let bit := sector mod 8 in
  (off < -256 \/ 256 <= off ->
     blockisfree bam track sector = Raise IndexError
     /\ allocateblock bam track sector = Raise IndexError
     /\ deallocateblock bam track sector = Raise IndexError)
  /\ (-256 <= off < 256 ->
        exists k v,
          py_index 256 off = Ok k /\ bam !! k = Some v
          /\ k = Z.to_nat (if off <? 0 then off + 256 else off)
          /\ blockisfree bam track sector = Ok (Z.testbit v bit)
          /\ allocateblock bam track sector
             = Ok (<[k := Z.land v (255 - Z.shiftl 1 bit)]> bam)
          /\ deallocateblock bam track sector
             = Ok (<[k := Z.lor v (Z.shiftl 1 bit)]> bam))
  /\ (0 <= sector < 24 ->
        (off < -256 \/ 256 <= off) <-> (track < -64 \/ 63 < track)).
Proof.
  intros [Hlen Hok] off bit.
  assert (Hlen' : Z.of_nat (length bam) = 256) by lia.
  split; [|split].
  - intros Hout. apply block_ops_raise. apply py_index_out; lia.
  - intros Hin.
    assert (Hi : py_index (Z.of_nat (length bam)) off
                 = Ok (Z.to_nat (if off <? 0 then off + 256 else off))).
    { destruct (Z.ltb_spec off 0).
      - rewrite py_index_neg by lia. now rewrite Hlen'.
      - apply py_index_nonneg. lia. }
    destruct (py_index_lookup bam off _ Hi) as [v Hv].
    eexists _, v.
    split; [rewrite <- Hlen'; exact Hi|]. split; [exact Hv|].
    split; [reflexivity|].
    split; [exact (blockisfree_at bam track sector _ v Hi Hv)|].
    split; [exact (allocateblock_at bam track sector Hok _ v Hi Hv)|].
    exact (deallocateblock_at bam track sector Hok _ v Hi Hv).
  - intros Hs.
    assert (0 <= sector / 8 < 3).
    { split; [apply Z.div_pos; lia|]. apply Z.div_lt_upper_bound; lia. }
    unfold off, bitmap_offset. lia.
Qed.

Lemma bam_subscript_errors_witness :
  blockisfree bam_track1_free 64 0 = Raise IndexError
  /\ allocateblock bam_track1_free 64 0 = Raise IndexError
  /\ deallocateblock bam_track1_free 64 0 = Raise IndexError.
Proof.
  apply (proj1 (bam_subscript_errors bam_track1_free 64 0
                  bam_track1_free_buffer)).
  right. vm_compute. discriminate.
Defined.

(** ** Loops *)

Section Loops.
Context {A S : Type}.
Implicit Types (body : S -> A -> result S) (xs : list A) (s : S).

Lemma for_each_ext body body' xs s :
  (forall x, In x xs -> forall s, body s x = body' s x) ->
  for_each body xs s = for_each body' xs s.
Proof.
  revert s. induction xs as [|x xs IH]; intros s Hext; [reflexivity|].
  simpl. rewrite (Hext x) by now left.
  destruct (body' s x) as [s'|e]; simpl; [|reflexivity].
  apply IH. intros y Hy. apply Hext. now right.
Qed.

Lemma for_each_pure body (f : S -> A -> S) xs s :
  (forall x, In x xs -> forall s, body s x = Ok (f s x)) ->
  for_each body xs s = Ok (fold_left f xs s).
Proof.
  revert s. induction xs as [|x xs IH]; intros s Hpure; [reflexivity|].
  simpl. rewrite (Hpure x) by now left. simpl.
  apply IH. intros y Hy. apply Hpure. now right.
Qed.

Lemma for_each_app body xs ys s :
  for_each body (xs ++ ys) s = (s' ← for_each body xs s; for_each body ys s').
Proof.
  revert s. induction xs as [|x xs IH]; intros s; [reflexivity|].
  simpl. destruct (body s x) as [s'|e]; simpl; [apply IH|reflexivity].
Qed.

(** A loop whose body raises nothing but [e] raises nothing but [e]. *)
Lemma for_each_Raise body xs s (e e' : exn) :
  (forall s x e', body s x = Raise e' -> e' = e) ->
  for_each body xs s = Raise e' -> e' = e.
Proof.
  intros Hbody. revert s. induction xs as [|x xs IH]; intros s; [discriminate|].
  simpl. destruct (body s x) as [s'|e''] eqn:Hb; simpl.
  - apply IH.
  - intros [= <-]. eapply Hbody, Hb.
Qed.
End Loops.

(** ** PETSCII codec *)

(** C2, as the specification words it, fails: the tables do collide.  Byte
    0x09 comes back as 0x20, and byte 0xE0 as 0xA0, the two sharing their
    ASCII image with bytes 0x20 and 0xA0. *)
Lemma petscii_round_trip_collisions :
  0 <= 0x09 <= 255
  /\ (s ← PETtoASC [0x09]; ASCtoPET s) = Ok [0x20]
  /\ (s ← PETtoASC [0x09]; ASCtoPET s) <> Ok [0x09]
  /\ (s ← PETtoASC [0xE0]; ASCtoPET s) = Ok [0xA0]
  /\ PETtoASC [0xE0] = PETtoASC [0xA0].
Proof.
  split; [lia|]. split; [reflexivity|]. split; [discriminate|].
  split; reflexivity.
Qed.

(** C2, amended: the round trip gives back every byte other than 0x09 and
    0xE0..0xFF; it turns 0x09 into 0x20 and a byte [b] of 0xE0..0xFF into
    [b - 0x40]. *)
Theorem petscii_round_trip (b : Z) :
  0 <= b <= 255 ->
  (s ← PETtoASC [b]; ASCtoPET s) = Ok [round_trip_image b]
  /\ (b <> 0x09 -> b < 0xE0 -> (s ← PETtoASC [b]; ASCtoPET s) = Ok [b]).
Proof.
  intros Hb.
  assert (Himg : (s ← PETtoASC [b]; ASCtoPET s) = Ok [round_trip_image b]).
  { pose (P := fun b => match s ← PETtoASC [b]; ASCtoPET s with
                        | Ok [c] => c =? round_trip_image b
                        | _ => false
                        end).
    assert (HP : P b = true).
    { apply (forallb_range P 0 256); [vm_compute; reflexivity|lia]. }
    unfold P in HP.
    destruct (s ← PETtoASC [b]; ASCtoPET s) as [[|c [|c' r]]|e];
      try discriminate.
    apply Z.eqb_eq in HP. now subst c. }
  split; [exact Himg|].
  intros Hne Hlt. rewrite Himg. unfold round_trip_image.
  destruct (Z.eqb_spec b 0x09); [lia|].
  destruct (Z.leb_spec 0xE0 b); [lia|reflexivity].
Qed.

Lemma petscii_round_trip_witness :
  (s ← PETtoASC [0x41]; ASCtoPET s) = Ok [round_trip_image 0x41]
  /\ (0x41 <> 0x09 -> 0x41 < 0xE0 ->
      (s ← PETtoASC [0x41]; ASCtoPET s) = Ok [0x41]).
Proof. apply (petscii_round_trip 0x41). lia. Defined.

(** ** Blocks free *)

(** The offsets the loops of [getblocksfree] and [getallocated] visit. *)
Lemma free_count_offsets :
  py_range 0x04 0x90 0x04
  = [4; 8; 12; 16; 20; 24; 28; 32; 36; 40; 44; 48; 52; 56; 60; 64; 68; 72;
     76; 80; 84; 88; 92; 96; 100; 104; 108; 112; 116; 120; 124; 128; 132;
     136; 140].
Proof. reflexivity. Qed.

Lemma free_count_offsets_bounds (x : Z) :
  In x (py_range 0x04 0x90 0x04) -> 4 <= x <= 140.
Proof.
  intros Hx.
  assert (H : forallb (fun x => (4 <=? x) && (x <=? 140))
                      (py_range 0x04 0x90 0x04) = true) by reflexivity.
  rewrite forallb_forall in H. apply H in Hx. lia.
Qed.

Lemma py_getitem_nth (l : bytes) (i : Z) :
  0 <= i < Z.of_nat (length l) -> py_getitem l i = Ok (nth (Z.to_nat i) l 0).
Proof.
  intros Hi. destruct (py_getitem_nonneg l i Hi) as (v & Hv & ->).
  f_equal. symmetry. apply nth_lookup_Some with (d := 0) in Hv. exact Hv.
Qed.

(** Stepping by 4 from 0x04 to 0x8C and skipping 0x48 visits the offsets
    [4*track] of tracks 1 to 35 without track 18. *)
Lemma sum_offsets_tracks (g : Z -> Z) :
  fold_left (fun acc x => if x =? 0x48 then acc else acc + g x)
            (py_range 0x04 0x90 0x04) 0
  = fold_right Z.add 0
      (map (fun track => g (4 * track))
           (List.filter (fun track => negb (track =? 18)) (py_range 1 36 1))).
Proof.
  rewrite free_count_offsets.
  change (List.filter (fun track => negb (track =? 18)) (py_range 1 36 1))
    with [1; 2; 3; 4; 5; 6; 7; 8; 9; 10; 11; 12; 13; 14; 15; 16; 17;
          19; 20; 21; 22; 23; 24; 25; 26; 27; 28; 29; 30; 31; 32; 33; 34;
          35].
  cbv - [Z.add]. lia.
Qed.

Lemma getblocksfree_sum (bam : bytes) :
  140 < Z.of_nat (length bam) -> getblocksfree bam = Ok (free_count_sum bam).
Proof.
  intros Hlen. unfold getblocksfree.
  rewrite (for_each_pure _
             (fun blocksfree x =>
                if x =? 0x48 then blocksfree
                else blocksfree + nth (Z.to_nat x) bam 0)).
  - f_equal.
    exact (sum_offsets_tracks (fun i => nth (Z.to_nat i) bam 0)).
  - intros x Hx s. apply free_count_offsets_bounds in Hx.
    destruct (x =? 0x48); [reflexivity|].
    rewrite py_getitem_nth by lia. reflexivity.
Qed.

Lemma getblocksfree_insert_track18 (bam : bytes) (v : Z) :
  getblocksfree (<[72%nat := v]> bam) = getblocksfree bam.
Proof.
  unfold getblocksfree. apply for_each_ext. intros x Hx s.
  apply free_count_offsets_bounds in Hx.
  destruct (Z.eqb_spec x 0x48) as [|Hne]; [reflexivity|].
  unfold py_getitem. rewrite length_insert.
  destruct (py_index (Z.of_nat (length bam)) x) as [k|e] eqn:Hk;
    [|reflexivity].
  simpl. rewrite list_lookup_insert_ne; [reflexivity|].
  revert Hk. unfold py_index. destruct (Z.ltb_spec x 0); [lia|].
  destruct (_ && _); [|discriminate]. intros [= <-]. lia.
Qed.

(** C5: [getblocksfree] is the sum of the free-count bytes of tracks 1 to
    35 without the byte at 0x48, and storing any value at 0x48 does not
    change it. *)
Theorem getblocksfree_excludes_track18 (bam : bytes) :
  sector_buffer bam ->
  getblocksfree bam = Ok (free_count_sum bam)
  /\ forall v, 0 <= v < 256 ->
       exists bam', bytearray_setitem bam 0x48 v = Ok bam'
                    /\ py_getitem bam' 0x48 = Ok v
                    /\ getblocksfree bam' = getblocksfree bam.
Proof.
  intros [Hlen Hok]. split.
  - apply getblocksfree_sum. lia.
  - intros v Hv.
    assert (Hi : py_index (Z.of_nat (length bam)) 0x48 = Ok 72%nat)
      by (rewrite Hlen; reflexivity).
    exists (<[72%nat := v]> bam).
    split; [now apply bytearray_setitem_at|].
    split; [now apply py_getitem_insert_eq|].
    apply getblocksfree_insert_track18.
Qed.

Lemma getblocksfree_excludes_track18_witness :
  getblocksfree bam_track1_free = Ok 21
  /\ exists bam', bytearray_setitem bam_track1_free 0x48 0xFF = Ok bam'
                  /\ py_getitem bam' 0x48 = Ok 0xFF
                  /\ getblocksfree bam' = getblocksfree bam_track1_free.
Proof.
  destruct (getblocksfree_excludes_track18 bam_track1_free
              bam_track1_free_buffer) as [Hsum Hcorrupt].
  split.
  - rewrite Hsum. reflexivity.
  - apply Hcorrupt. lia.
Defined.

(** [getblocksfree] needs the buffer to reach offset 0x8C, and no more. *)
Lemma getblocksfree_short (bam : bytes) :
  Z.of_nat (length bam) <= 140 -> getblocksfree bam = Raise IndexError.
Proof.
  intros Hlen. unfold getblocksfree.
  change (py_range 0x04 0x90 0x04) with (py_range 0x04 0x8C 0x04 ++ [0x8C]).
  rewrite for_each_app.
  match goal with |- mbind _ ?m = _ => destruct m as [s|e] eqn:Hloop end;
    simpl.
  - rewrite py_getitem_out by lia. reflexivity.
  - f_equal. eapply for_each_Raise; [|exact Hloop].
    intros s x e'. cbv beta. destruct (x =? 0x48); [discriminate|].
    destruct (py_getitem bam x) as [v|e''] eqn:Hx; simpl; [discriminate|].
    intros [= <-]. now apply py_getitem_Raise in Hx.
Qed.

(** ** Slices and the codec on well-formed buffers *)

Lemma py_slice_ok (b : bytes) (start stop : Z) :
  bytes_ok b -> bytes_ok (py_slice b start stop).
Proof. intros Hok. unfold py_slice. now apply Forall_take, Forall_drop. Qed.

Lemma py_slice_length {A : Type} (l : list A) (start stop : Z) :
  0 <= start -> 0 <= stop ->
  Z.of_nat (length (py_slice l start stop))
  = Z.max 0 (Z.min stop (Z.of_nat (length l))
             - Z.min start (Z.of_nat (length l))).
Proof.
  intros Hstart Hstop. unfold py_slice, py_clamp.
  destruct (Z.ltb_spec start 0); [lia|]. destruct (Z.ltb_spec stop 0); [lia|].
  rewrite length_take, length_drop. lia.
Qed.

Lemma PETdelpadding_ok (line : bytes) :
  bytes_ok line -> bytes_ok (PETdelpadding line).
Proof.
  unfold PETdelpadding, bytes_ok.
  assert (H : forall acc, Forall (fun x => 0 <= x < 256) acc ->
                Forall (fun x => 0 <= x < 256) line ->
                Forall (fun x => 0 <= x < 256)
                  (fold_left (fun result x =>
                                if x =? 0xA0 then result else result ++ [x])
                             line acc)).
  { induction line as [|x line IH]; intros acc Hacc Hline; [exact Hacc|].
    inversion Hline; subst. simpl. apply IH; [|assumption].
    destruct (x =? 0xA0); [exact Hacc|].
    apply Forall_app. split; [exact Hacc|]. now constructor. }
  intros Hline. now apply H.
Qed.

Lemma PETtoASC_total (line : bytes) :
  bytes_ok line -> exists s, PETtoASC line = Ok s.
Proof.
  unfold PETtoASC. generalize (@nil Z) at 2.
  induction line as [|x line IH]; intros acc Hline; [simpl; eauto|].
  inversion Hline; subst. simpl.
  destruct (py_getitem_nonneg PETtoASCtable x) as (c & _ & ->).
  { change (Z.of_nat (length PETtoASCtable)) with 256. lia. }
  simpl. now apply IH.
Qed.

Lemma getdiskname_total (bam : bytes) :
  bytes_ok bam -> exists s, getdiskname bam = Ok s.
Proof. intros Hok. now apply PETtoASC_total, PETdelpadding_ok, py_slice_ok. Qed.

Lemma getdiskident_total (bam : bytes) :
  bytes_ok bam -> exists s, getdiskident bam = Ok s.
Proof. intros Hok. now apply PETtoASC_total, py_slice_ok. Qed.

Lemma getheader_total (bam : bytes) :
  bytes_ok bam -> exists s, getheader bam = Ok s.
Proof.
  intros Hok. unfold getheader.
  destruct (getdiskname_total bam Hok) as [name ->].
  destruct (getdiskident_total bam Hok) as [id ->].
  destruct (PETtoASC_total (py_slice bam 0xA5 0xA7)) as [dos ->];
    [now apply py_slice_ok|].
  simpl. eauto.
Qed.

(** ** The directory pass *)

Lemma range_from_In_inv (n : nat) (start x : Z) :
  In x (range_from n start 1) -> start <= x < start + Z.of_nat n.
Proof.
  revert start. induction n as [|n IH]; intros start; [intros []|].
  simpl. intros [<-|Hx]; [lia|]. apply IH in Hx. lia.
Qed.

Lemma py_range_In_inv (n x : Z) : In x (py_range 0 n 1) -> 0 <= x < n.
Proof.
  unfold py_range. rewrite Z.div_1_r. intros Hx.
  apply range_from_In_inv in Hx. lia.
Qed.

Lemma slot_in_dir (dir : bytes) (ptr : Z) :
  0 <= ptr < slot_count dir ->
  0 <= 0x20 * ptr /\ 0x20 * ptr + 0x20 <= Z.of_nat (length dir).
Proof.
  unfold slot_count. intros Hptr.
  pose proof (Z.mul_div_le (Z.of_nat (length dir)) 0x20 ltac:(lia)). lia.
Qed.

(** The loop body on a slot of the buffer, its subscripts resolved. *)
Lemma dirpass_slot_cases (dir : bytes) (fl : list file) (ptr : Z) :
  0 <= ptr < slot_count dir ->
  dirpass_slot dir fl ptr
  = let base := 0x20 * ptr in
    let t := slot_type_byte dir ptr in
    if t >? 0 then
      type ← py_getitem FILETYPES (Z.land t 0x07);
      name ← PETtoASC (PETdelpadding
                         (py_slice dir (base + 0x05) (base + 0x15)));
      Ok (fl ++ [mkfile base type (Z.land t 0x40 >? 0) (Z.land t 0x80 >? 0)
                        (nth (Z.to_nat (base + 0x03)) dir 0)
                        (nth (Z.to_nat (base + 0x04)) dir 0)
                        name
                        (int_from_bytes_little
                           (py_slice dir (base + 0x1E) (base + 0x20)))])
    else Ok fl.
Proof.
  intros Hptr. apply slot_in_dir in Hptr as [Hlo Hhi].
  unfold dirpass_slot, slot_type_byte. cbv zeta.
  rewrite !py_getitem_nth by lia. cbn [mbind result_bind].
  destruct (_ >? 0); [|reflexivity].
  destruct (py_getitem FILETYPES _); reflexivity.
Qed.

Lemma dirpass_slot_Ok (dir : bytes) (fl fl' : list file) (ptr : Z) :
  0 <= ptr < slot_count dir ->
  dirpass_slot dir fl ptr = Ok fl' ->
  map file_base fl'
  = map file_base fl
    ++ (if slot_type_byte dir ptr >? 0 then [0x20 * ptr] else []).
Proof.
  intros Hptr. rewrite dirpass_slot_cases by exact Hptr. cbv zeta.
  destruct (_ >? 0).
  - destruct (py_getitem FILETYPES _); simpl; [|discriminate].
    destruct (PETtoASC _); simpl; [|discriminate].
    intros [= <-]. rewrite map_app. reflexivity.
  - intros [= <-]. now rewrite app_nil_r.
Qed.

Lemma dirpass_loop_bases (dir : bytes) (ptrs : list Z) :
  (forall ptr, In ptr ptrs -> 0 <= ptr < slot_count dir) ->
  forall fl fl',
    for_each (dirpass_slot dir) ptrs fl = Ok fl' ->
    map file_base fl'
    = map file_base fl
      ++ map (Z.mul 0x20)
           (List.filter (fun ptr => slot_type_byte dir ptr >? 0) ptrs).
Proof.
  induction ptrs as [|ptr ptrs IH]; intros Hin fl fl'.
  - simpl. intros [= <-]. now rewrite app_nil_r.
  - simpl. destruct (dirpass_slot dir fl ptr) as [fl1|e] eqn:Hslot; simpl;
      [|discriminate].
    intros Hloop. apply dirpass_slot_Ok in Hslot; [|apply Hin; now left].
    apply IH in Hloop; [|intros p Hp; apply Hin; now right].
    rewrite Hloop, Hslot. destruct (_ >? 0); simpl.
    + now rewrite <- app_assoc.
    + now rewrite app_nil_r.
Qed.

Lemma dirpass_slot_total (dir : bytes) (fl : list file) (ptr : Z) :
  bytes_ok dir -> 0 <= ptr < slot_count dir ->
  Z.land (slot_type_byte dir ptr) 0x07 < 5 ->
  exists fl', dirpass_slot dir fl ptr = Ok fl'.
Proof.
  intros Hok Hptr Htype. rewrite dirpass_slot_cases by exact Hptr. cbv zeta.
  destruct (_ >? 0); [|eauto].
  destruct (py_getitem_nonneg FILETYPES (Z.land (slot_type_byte dir ptr) 0x07))
    as (type & _ & ->).
  { split; [apply Z.land_nonneg; right; lia|exact Htype]. }
  destruct (PETtoASC_total
              (PETdelpadding (py_slice dir (0x20 * ptr + 0x05)
                                           (0x20 * ptr + 0x15))))
    as [name ->]; [now apply PETdelpadding_ok, py_slice_ok|].
  simpl. eauto.
Qed.

Lemma dirpass_loop_total (dir : bytes) (ptrs : list Z) :
  bytes_ok dir ->
  (forall ptr, In ptr ptrs ->
     0 <= ptr < slot_count dir /\ Z.land (slot_type_byte dir ptr) 0x07 < 5) ->
  forall fl, exists fl', for_each (dirpass_slot dir) ptrs fl = Ok fl'.
Proof.
  intros Hok. induction ptrs as [|ptr ptrs IH]; intros Hin fl; [simpl; eauto|].
  simpl. destruct (Hin ptr) as [Hptr Htype]; [now left|].
  destruct (dirpass_slot_total dir fl ptr Hok Hptr Htype) as [fl1 ->]. simpl.
  apply IH. intros p Hp. apply Hin. now right.
Qed.

(** What a successful [Dir(dirblocks)] holds. *)
Lemma Dir_init_Ok (dirblocks : bytes) (d : Dir) :
  Dir_init dirblocks = Ok d ->
  dir_bam d = py_slice dirblocks 0 256
  /\ dir_dir d = py_slice dirblocks 256 (Z.of_nat (length dirblocks))
  /\ getdiskname (dir_bam d) = Ok (title d)
  /\ getdiskident (dir_bam d) = Ok (ident d)
  /\ getblocksfree (dir_bam d) = Ok (blocksfree d)
  /\ getheader (dir_bam d) = Ok (header d)
  /\ for_each (dirpass_slot (dir_dir d))
              (py_range 0 (slot_count (dir_dir d)) 1) []
     = Ok (filelist d).
Proof.
  unfold Dir_init, dirpass, slot_count. cbv zeta.
  destruct (getdiskname _) as [t|e] eqn:Ht; simpl; [|discriminate].
  destruct (getdiskident _) as [i|e] eqn:Hi; simpl; [|discriminate].
  destruct (getblocksfree _) as [n|e] eqn:Hn; simpl; [|discriminate].
  destruct (getheader _) as [h|e] eqn:Hh; simpl; [|discriminate].
  destruct (for_each _ _ _) as [fl|e] eqn:Hfl; simpl; [|discriminate].
  intros [= <-]. simpl. repeat split; assumption.
Qed.

Lemma Dir_init_total (dirblocks : bytes) :
  bytes_ok dirblocks -> (141 <= length dirblocks)%nat ->
  (forall ptr,
     let dir := py_slice dirblocks 256 (Z.of_nat (length dirblocks)) in
     0 <= ptr < slot_count dir -> Z.land (slot_type_byte dir ptr) 0x07 < 5) ->
  exists d, Dir_init dirblocks = Ok d.
Proof.
  intros Hok Hlen Htypes. unfold Dir_init, dirpass. cbv zeta.
  set (bam := py_slice dirblocks 0 256).
  set (dir := py_slice dirblocks 256 (Z.of_nat (length dirblocks))) in *.
  assert (Hbam : bytes_ok bam) by now apply py_slice_ok.
  assert (Hdir : bytes_ok dir) by now apply py_slice_ok.
  destruct (getdiskname_total bam Hbam) as [t ->].
  destruct (getdiskident_total bam Hbam) as [i ->].
  rewrite getblocksfree_sum
    by (unfold bam; rewrite py_slice_length by lia; lia).
  destruct (getheader_total bam Hbam) as [h ->].
  destruct (dirpass_loop_total dir
              (py_range 0 (Z.of_nat (length dir) / 0x20) 1) Hdir) with (fl := @nil file)
    as [fl ->].
  { intros ptr Hptr. apply py_range_In_inv in Hptr. split; [exact Hptr|].
    now apply Htypes. }
  simpl. eauto.
Qed.

(** The scenario buffers hold what [ASCtoPET] makes of the three names. *)
Lemma scenario_encoding :
  length scenario_bam = 256%nat /\ length scenario_dir = 256%nat
  /\ (s ← ASCtoPET (py_str "TEST DISK"); Ok (s ++ repeat 0xA0 7))
     = Ok (py_slice scenario_bam 0x90 0xA0)
  /\ ASCtoPET (py_str "8A") = Ok (py_slice scenario_bam 0xA2 0xA4)
  /\ (s ← ASCtoPET (py_str "HELLO"); Ok (s ++ repeat 0xA0 11))
     = Ok (py_slice scenario_dir 0x05 0x15).
Proof. repeat split; vm_compute; reflexivity. Qed.

(** Name bytes taken as ASCII codes instead decode to lower case. *)
Lemma PETtoASC_unshifted_letters :
  PETtoASC (py_str "HELLO") = Ok (py_str "hello").
Proof. vm_compute. reflexivity. Qed.

(** C6: a directory built from [dirblocks] holds the first 256 bytes as BAM
    and the bytes from 256 on as slots, its title and ID are the decoded
    name and ID fields of that BAM, and its entries are, in slot order, the
    slots of those bytes whose type byte is not zero, so a slot with type
    byte zero has no entry; the parse succeeds when no type byte has low
    bits 5 to 7.  The scenario buffer is 256 bytes of BAM whose name and ID
    fields hold the codes [ASCtoPET] gives for TEST DISK (padded with 0xA0
    to 16 bytes) and 8A, followed by 256 bytes of slots whose first name
    field holds the codes [ASCtoPET] gives for HELLO; it parses to the
    title, name, type, size and flags the specification lists. *)
Theorem dirpass_skips_empty_slots :
  (forall dirblocks d,
     Dir_init dirblocks = Ok d ->
     let bam := py_slice dirblocks 0 256 in
     let dir := py_slice dirblocks 256 (Z.of_nat (length dirblocks)) in
     dir_bam d = bam /\ dir_dir d = dir
     /\ getdiskname bam = Ok (title d) /\ getdiskident bam = Ok (ident d)
     /\ map file_base (filelist d)
        = map (Z.mul 0x20)
            (List.filter (fun ptr => slot_type_byte dir ptr >? 0)
                         (py_range 0 (slot_count dir) 1))
     /\ forall ptr,
          0 <= ptr < slot_count dir ->
          slot_type_byte dir ptr = 0 ->
          forall f, In f (filelist d) -> file_base f <> 0x20 * ptr)
  /\ (forall dirblocks,
        bytes_ok dirblocks -> (141 <= length dirblocks)%nat ->
        (forall ptr,
           let dir := py_slice dirblocks 256 (Z.of_nat (length dirblocks)) in
           0 <= ptr < slot_count dir ->
           Z.land (slot_type_byte dir ptr) 0x07 < 5) ->
        exists d, Dir_init dirblocks = Ok d)
  /\ (scenario_dirblocks = scenario_bam ++ scenario_dir
      /\ length scenario_bam = 256%nat /\ length scenario_dir = 256%nat
      /\ (s ← ASCtoPET (py_str "TEST DISK"); Ok (s ++ repeat 0xA0 7))
         = Ok (py_slice scenario_bam 0x90 0xA0)
      /\ ASCtoPET (py_str "8A") = Ok (py_slice scenario_bam 0xA2 0xA4)
      /\ (s ← ASCtoPET (py_str "HELLO"); Ok (s ++ repeat 0xA0 11))
         = Ok (py_slice scenario_dir 0x05 0x15)
      /\ py_slice scenario_dir 0x02 0x05 = [0x82; 17; 0]
      /\ py_slice scenario_dir 0x1E 0x20 = [5; 0]
      /\ forall ptr, 1 <= ptr < 8 -> slot_type_byte scenario_dir ptr = 0)
  /\ exists d f,
       Dir_init scenario_dirblocks = Ok d
       /\ dir_bam d = scenario_bam /\ dir_dir d = scenario_dir
       /\ title d = py_str "TEST DISK" /\ ident d = py_str "8A"
       /\ filelist d = [f]
       /\ file_name f = py_str "HELLO" /\ file_type f = py_str "PRG"
       /\ file_size f = 5 /\ file_closed f = true /\ file_locked f = false
       /\ file_track f = 17 /\ file_sector f = 0.
Proof.
  split; [|split; [|split]].
  - intros dirblocks d Hd bam dir.
    apply Dir_init_Ok in Hd as (Hbam & Hdir & Htitle & Hident & _ & _ & Hloop).
    rewrite Hbam in Htitle, Hident. rewrite Hdir in Hloop.
    fold bam in Hbam, Htitle, Hident. fold dir in Hdir, Hloop.
    apply dirpass_loop_bases in Hloop; [|apply py_range_In_inv].
    simpl in Hloop.
    split; [exact Hbam|]. split; [exact Hdir|].
    split; [exact Htitle|]. split; [exact Hident|].
    split; [exact Hloop|].
    intros ptr Hptr Hzero f Hf Hbase.
    apply (in_map file_base) in Hf. rewrite Hloop, Hbase in Hf.
    apply in_map_iff in Hf as (p & Hp & Hin).
    apply filter_In in Hin as [_ Hpos].
    assert (p = ptr) as -> by lia.
    rewrite Hzero in Hpos. discriminate.
  - exact Dir_init_total.
  - split; [reflexivity|].
    destruct scenario_encoding as (Hl1 & Hl2 & Hn & Hi & Hf).
    repeat (split; [assumption|]).
    split; [vm_compute; reflexivity|]. split; [vm_compute; reflexivity|].
    intros ptr Hptr.
    pose (P := fun ptr => slot_type_byte scenario_dir ptr =? 0).
    assert (HP : P ptr = true).
    { apply (forallb_range P 1 8); [vm_compute; reflexivity|lia]. }
    now apply Z.eqb_eq in HP.
  - eexists _, _. split; [vm_compute; reflexivity|].
    repeat split; vm_compute; reflexivity.
Qed.

Lemma dirpass_skips_empty_slots_witness :
  exists d,
    Dir_init scenario_dirblocks = Ok d
    /\ dir_dir d
       = py_slice scenario_dirblocks 256
           (Z.of_nat (length scenario_dirblocks))
    /\ map file_base (filelist d)
       = map (Z.mul 0x20)
           (List.filter
              (fun ptr =>
                 slot_type_byte
                   (py_slice scenario_dirblocks 256
                      (Z.of_nat (length scenario_dirblocks))) ptr >? 0)
              (py_range 0
                 (slot_count
                    (py_slice scenario_dirblocks 256
                       (Z.of_nat (length scenario_dirblocks)))) 1))
    /\ forall f, In f (filelist d) -> file_base f <> 0x20 * 1.
Proof.
  pose proof (proj1 dirpass_skips_empty_slots scenario_dirblocks) as Hgen.
  eexists. split; [vm_compute; reflexivity|].
  match goal with |- dir_dir ?d = _ /\ _ =>
    pose proof (Hgen d ltac:(vm_compute; reflexivity)) as Hd
  end.
  cbv zeta in Hd. destruct Hd as (_ & Hdir & _ & _ & Hbases & Hskip).
  split; [exact Hdir|]. split; [exact Hbases|].
  apply (Hskip 1); [vm_compute; split; [discriminate|reflexivity]|].
  vm_compute. reflexivity.
Defined.

(** ** Construction *)

(** C3, as the specification words it, fails: no length is checked.  A
    256-byte buffer, shorter than 256+32, silently gives a directory with no
    entries; an empty buffer gives a BAM, and the directory built from it
    fails on a subscript of the blocks-free loop. *)
Lemma construction_short_buffers :
  (length bam_track1_free < 256 + 32)%nat
  /\ (exists d, Dir_init bam_track1_free = Ok d /\ filelist d = [])
  /\ (length (@nil Z) < 256)%nat
  /\ BAM_init [] = Ok []
  /\ Dir_init [] = Raise IndexError.
Proof.
  split; [vm_compute; lia|].
  split; [eexists; split; vm_compute; reflexivity|].
  split; [vm_compute; lia|].
  split; vm_compute; reflexivity.
Qed.

(** C3, amended: construction checks no length.  [BAM(buf)] accepts every
    buffer, and [getblocksfree] on one of fewer than 141 bytes raises
    [IndexError].  [Dir(buf)] on fewer than 141 bytes raises [IndexError]
    from that loop; on 141 to 287 bytes it succeeds, with the first 256
    bytes as BAM and an empty entry list. *)
Theorem construction_checks_no_length (buf : bytes) :
  bytes_ok buf ->
  BAM_init buf = Ok buf
  /\ ((length buf < 141)%nat ->
        getblocksfree buf = Raise IndexError
        /\ Dir_init buf = Raise IndexError)
  /\ ((141 <= length buf < 288)%nat ->
        exists d, Dir_init buf = Ok d
                  /\ dir_bam d = py_slice buf 0 256 /\ filelist d = []).
Proof.
  intros Hok. split; [reflexivity|]. split.
  - intros Hlen. split; [apply getblocksfree_short; lia|].
    unfold Dir_init, dirpass. cbv zeta.
    set (bam := py_slice buf 0 256).
    assert (Hbam : bytes_ok bam) by now apply py_slice_ok.
    destruct (getdiskname_total bam Hbam) as [t ->].
    destruct (getdiskident_total bam Hbam) as [i ->].
    rewrite getblocksfree_short; [reflexivity|].
    unfold bam. rewrite py_slice_length by lia. lia.
  - intros Hlen.
    assert (Hslots : slot_count (py_slice buf 256 (Z.of_nat (length buf))) = 0).
    { unfold slot_count. rewrite py_slice_length by lia.
      apply Z.div_small. lia. }
    destruct (Dir_init_total buf Hok) as [d Hd]; [lia| |].
    { cbv zeta. intros ptr. rewrite Hslots. lia. }
    exists d. split; [exact Hd|].
    apply Dir_init_Ok in Hd as (Hbam & Hdir & _ & _ & _ & _ & Hloop).
    split; [exact Hbam|].
    rewrite Hdir, Hslots in Hloop. simpl in Hloop. congruence.
Qed.

Lemma construction_checks_no_length_witness :
  BAM_init bam_track1_free = Ok bam_track1_free
  /\ exists d, Dir_init bam_track1_free = Ok d
               /\ dir_bam d = py_slice bam_track1_free 0 256
               /\ filelist d = [].
Proof.
  destruct (construction_checks_no_length bam_track1_free
              (proj2 bam_track1_free_buffer)) as (Hbam & _ & Hdir).
  split; [exact Hbam|]. apply Hdir. vm_compute. split; lia.
Defined.

(** * Further properties *)

(** ** Geometry: absolute sector numbers and file pointers *)

Lemma py_range_empty (start stop : Z) : stop <= start -> py_range start stop 1 = [].
Proof.
  intros Hle. unfold py_range. rewrite Z.div_1_r.
  replace (Z.to_nat (stop - start + 1 - 1)) with 0%nat by lia. reflexivity.
Qed.

Lemma getsectornumber_zones (track : Z) :
  1 <= track <= 41 -> getsectornumber track 0 = track_start track.
Proof.
  intros Ht.
  pose (P := fun t => getsectornumber t 0 =? track_start t).
  assert (HP : P track = true).
  { apply (forallb_range P 1 42); [vm_compute; reflexivity|lia]. }
  now apply Z.eqb_eq in HP.
Qed.

Lemma getsectornumber_beyond (n : nat) :
  getsectornumber (41 + Z.of_nat n) 0 = 768.
Proof.
  induction n as [|n IH]; [reflexivity|].
  replace (41 + Z.of_nat (S n)) with (41 + Z.of_nat n + 1) by lia.
  rewrite getsectornumber_next_track, IH by lia.
  unfold getsectors.
  repeat match goal with |- context [?a <? ?b] =>
    destruct (Z.ltb_spec a b); try lia
  end.
Qed.

(** X1: The absolute sector number over all integers: the zone formula on
    tracks 1 to 41; a track below 1 counts as track 1 and a track above 41
    as track 41, because [getsectors] is 0 outside the drive. *)
Theorem getsectornumber_everywhere (track sector : Z) :
  (track <= 1 -> getsectornumber track sector = sector)
  /\ (1 <= track <= 41 ->
        getsectornumber track sector = track_start track + sector)
  /\ (41 <= track -> getsectornumber track sector = 768 + sector).
Proof.
  rewrite getsectornumber_sector. split; [|split].
  - intros Ht. unfold getsectornumber. rewrite py_range_empty by lia.
    reflexivity.
  - intros Ht. now rewrite getsectornumber_zones.
  - intros Ht. replace track with (41 + Z.of_nat (Z.to_nat (track - 41)))
      by lia.
    now rewrite getsectornumber_beyond.
Qed.

Lemma getsectornumber_everywhere_witness :
  getsectornumber (-3) 7 = 7
  /\ getsectornumber 18 1 = track_start 18 + 1
  /\ getsectornumber 50 0 = 768 + 0.
Proof.
  refine (conj _ (conj _ _)).
  - apply (proj1 (getsectornumber_everywhere (-3) 7)). lia.
  - apply (proj1 (proj2 (getsectornumber_everywhere 18 1))). lia.
  - apply (proj2 (proj2 (getsectornumber_everywhere 50 0))). lia.
Defined.

Lemma valid_block_number (track sector : Z) :
  valid_block track sector ->
  getsectornumber track sector = track_start track + sector
  /\ track_start track <= getsectornumber track sector
     < track_start track + getsectors track.
Proof.
  intros [Ht Hs]. rewrite getsectornumber_sector, getsectornumber_zones by lia.
  lia.
Qed.

Ltac zone_cases :=
  unfold track_start, getsectors in *;
  repeat match goal with
         | H : context [?a <? ?b] |- _ => destruct (Z.ltb_spec a b)
         | |- context [?a <? ?b] => destruct (Z.ltb_spec a b)
         end.

(** X2: Distinct blocks of the drive have distinct absolute sector numbers, all
    below 768, and below 683 on the 35 tracks of a standard disk. *)
Theorem getsectornumber_injective (t s t' s' : Z) :
  valid_block t s -> valid_block t' s' ->
  (getsectornumber t s = getsectornumber t' s' -> t = t' /\ s = s')
  /\ 0 <= getsectornumber t s < 768
  /\ (t <= 35 -> getsectornumber t s < 683).
Proof.
  intros Hv Hv'.
  destruct (valid_block_number t s Hv) as [-> _].
  destruct (valid_block_number t' s' Hv') as [-> _].
  destruct Hv as [Ht Hs], Hv' as [Ht' Hs'].
  split; [|split].
  - intros Heq. zone_cases; lia.
  - zone_cases; lia.
  - intros H35. zone_cases; lia.
Qed.

Lemma getsectornumber_injective_witness :
  (getsectornumber 18 0 = getsectornumber 17 20 -> 18 = 17 /\ 0 = 20)
  /\ 0 <= getsectornumber 18 0 < 768
  /\ (18 <= 35 -> getsectornumber 18 0 < 683).
Proof.
  apply (getsectornumber_injective 18 0 17 20); split; try lia.
  - change (getsectors 18) with 19. lia.
  - change (getsectors 17) with 21. lia.
Defined.

(** X3: The 256-byte ranges that [getfilepointer] gives to two different blocks
    of the drive do not overlap, and each lies inside an image of
    768 * 256 bytes. *)
Theorem getfilepointer_disjoint (t s t' s' : Z) :
  valid_block t s -> valid_block t' s' -> (t, s) <> (t', s') ->
  (getfilepointer t s + 256 <= getfilepointer t' s'
   \/ getfilepointer t' s' + 256 <= getfilepointer t s)
  /\ 0 <= getfilepointer t s /\ getfilepointer t s + 256 <= 768 * 256.
Proof.
  intros Hv Hv' Hne. unfold getfilepointer.
  destruct (valid_block_number t s Hv) as [-> _].
  destruct (valid_block_number t' s' Hv') as [-> _].
  destruct Hv as [Ht Hs], Hv' as [Ht' Hs'].
  assert (Hdiff : t <> t' \/ s <> s').
  { destruct (Z.eq_dec t t') as [->|]; [right|now left].
    intros ->. now apply Hne. }
  zone_cases; lia.
Qed.

Lemma getfilepointer_disjoint_witness :
  (getfilepointer 17 20 + 256 <= getfilepointer 18 0
   \/ getfilepointer 18 0 + 256 <= getfilepointer 17 20)
  /\ 0 <= getfilepointer 17 20 /\ getfilepointer 17 20 + 256 <= 768 * 256.
Proof.
  apply (getfilepointer_disjoint 17 20 18 0).
  - split; [lia|]. change (getsectors 17) with 21. lia.
  - split; [lia|]. change (getsectors 18) with 19. lia.
  - discriminate.
Defined.

(** ** The block operations in closed form *)

Lemma nth_insert_eq (l : bytes) (k : nat) (v : Z) :
  (k < length l)%nat -> nth k (<[k := v]> l) 0 = v.
Proof. intros Hk. apply nth_lookup_Some. now apply list_lookup_insert_eq. Qed.

Lemma nth_insert_ne (l : bytes) (j k : nat) (v : Z) :
  j <> k -> nth k (<[j := v]> l) 0 = nth k l 0.
Proof.
  intros Hne. rewrite !nth_lookup, list_lookup_insert_ne by exact Hne.
  reflexivity.
Qed.

Lemma bytes_ok_nth (b : bytes) (k : nat) : bytes_ok b -> 0 <= nth k b 0 < 256.
Proof.
  intros Hok. rewrite nth_lookup. destruct (b !! k) as [v|] eqn:Hk; simpl.
  - eapply bytes_ok_lookup; eauto.
  - lia.
Qed.

Lemma py_index_mod (i : Z) :
  -256 <= i < 256 -> py_index 256 i = Ok (Z.to_nat (i mod 256)).
Proof.
  intros Hi. destruct (Z.lt_ge_cases i 0).
  - rewrite py_index_neg by lia. do 2 f_equal.
    rewrite <- (Z.mod_add i 1 256), Z.mod_small by lia. lia.
  - rewrite py_index_nonneg, Z.mod_small by lia. reflexivity.
Qed.

Lemma bitmap_position_lt (track sector : Z) : (bitmap_position track sector < 256)%nat.
Proof.
  unfold bitmap_position.
  pose proof (Z.mod_pos_bound (bitmap_offset track sector) 256). lia.
Qed.

Section BlockOpsClosed.
Variable bam : bytes.
Variables track sector : Z.
Hypothesis bam_buffer : sector_buffer bam.
Hypothesis off_range : -256 <= bitmap_offset track sector < 256.

Let k := bitmap_position track sector.
Let bit := sector mod 8.

Lemma bitmap_position_index :
  py_index (Z.of_nat (length bam)) (bitmap_offset track sector) = Ok k.
Proof.
  destruct bam_buffer as [-> _]. change (Z.of_nat 256) with 256.
  now apply py_index_mod.
Qed.

Lemma bitmap_position_lookup : bam !! k = Some (nth k bam 0).
Proof.
  destruct (lookup_lt_is_Some_2 bam k) as [v Hv].
  - destruct bam_buffer as [-> _]. apply bitmap_position_lt.
  - rewrite Hv. f_equal. symmetry. now apply nth_lookup_Some.
Qed.

Lemma blockisfree_nth :
  blockisfree bam track sector = Ok (Z.testbit (nth k bam 0) bit).
Proof.
  exact (blockisfree_at bam track sector k _
           bitmap_position_index bitmap_position_lookup).
Qed.

Lemma allocateblock_nth :
  allocateblock bam track sector
  = Ok (<[k := Z.land (nth k bam 0) (255 - Z.shiftl 1 bit)]> bam).
Proof.
  exact (allocateblock_at bam track sector (proj2 bam_buffer) k _
           bitmap_position_index bitmap_position_lookup).
Qed.

Lemma deallocateblock_nth :
  deallocateblock bam track sector
  = Ok (<[k := Z.lor (nth k bam 0) (Z.shiftl 1 bit)]> bam).
Proof.
  exact (deallocateblock_at bam track sector (proj2 bam_buffer) k _
           bitmap_position_index bitmap_position_lookup).
Qed.
End BlockOpsClosed.

Lemma blockisfree_Ok_range (bam : bytes) (track sector : Z) (b : bool) :
  sector_buffer bam -> blockisfree bam track sector = Ok b ->
  -256 <= bitmap_offset track sector < 256.
Proof.
  intros [Hlen _]. unfold blockisfree. fold (bitmap_offset track sector).
  destruct (py_getitem bam (bitmap_offset track sector)) as [v|e] eqn:Hv;
    [|discriminate].
  intros _. apply py_getitem_Ok in Hv as (k & Hk & _).
  apply py_index_lt in Hk. lia.
Qed.

Lemma cleared_buffer (bam : bytes) (k : nat) (bit : Z) :
  sector_buffer bam -> 0 <= bit < 8 ->
  sector_buffer (<[k := Z.land (nth k bam 0) (255 - Z.shiftl 1 bit)]> bam).
Proof.
  intros Hbuf Hbit. apply sector_buffer_insert; [exact Hbuf|].
  apply clear_is_byte; [apply bytes_ok_nth, Hbuf|exact Hbit].
Qed.

Lemma set_buffer (bam : bytes) (k : nat) (bit : Z) :
  sector_buffer bam -> 0 <= bit < 8 ->
  sector_buffer (<[k := Z.lor (nth k bam 0) (Z.shiftl 1 bit)]> bam).
Proof.
  intros Hbuf Hbit. apply sector_buffer_insert; [exact Hbuf|].
  apply set_is_byte; [apply bytes_ok_nth, Hbuf|exact Hbit].
Qed.

(** X4: Read after write: once [allocateblock] has run on a block,
    [blockisfree] says False for it, and once [deallocateblock] has run it
    says True, whatever the bit was before. *)
Theorem blockisfree_after_write (bam : bytes) (track sector : Z) :
  sector_buffer bam -> -256 <= bitmap_offset track sector < 256 ->
  (a ← allocateblock bam track sector; blockisfree a track sector) = Ok false
  /\ (d ← deallocateblock bam track sector; blockisfree d track sector)
     = Ok true.
Proof.
  intros Hbuf Hoff. pose proof (sector_bit_range sector) as Hbit.
  pose proof (bitmap_position_lt track sector) as Hk.
  rewrite allocateblock_nth, deallocateblock_nth by assumption.
  cbn [mbind result_bind]. split.
  - rewrite blockisfree_nth by (try apply cleared_buffer; assumption).
    rewrite nth_insert_eq by (rewrite (proj1 Hbuf); exact Hk).
    rewrite testbit_clear by (try apply bytes_ok_nth, Hbuf; assumption).
    now rewrite Z.eqb_refl.
  - rewrite blockisfree_nth by (try apply set_buffer; assumption).
    rewrite nth_insert_eq by (rewrite (proj1 Hbuf); exact Hk).
    rewrite testbit_set by lia. now rewrite Z.eqb_refl.
Qed.

Lemma blockisfree_after_write_witness :
  (a ← allocateblock bam_track1_free 17 20; blockisfree a 17 20) = Ok false
  /\ (d ← deallocateblock bam_track1_free 17 20; blockisfree d 17 20)
     = Ok true.
Proof.
  apply (blockisfree_after_write bam_track1_free 17 20 bam_track1_free_buffer).
  vm_compute. split; [discriminate|reflexivity].
Defined.

Lemma clear_when_clear (v k : Z) :
  0 <= v < 256 -> 0 <= k < 8 -> Z.testbit v k = false ->
  Z.land v (255 - Z.shiftl 1 k) = v.
Proof.
  intros Hv Hk Hbit. apply Z.bits_inj'. intros j Hj.
  rewrite testbit_clear by assumption.
  destruct (Z.eqb_spec j k) as [->|]; congruence.
Qed.

Lemma set_when_set (v k : Z) :
  0 <= k -> Z.testbit v k = true -> Z.lor v (Z.shiftl 1 k) = v.
Proof.
  intros Hk Hbit. apply Z.bits_inj'. intros j Hj.
  rewrite testbit_set by assumption.
  destruct (Z.eqb_spec j k) as [->|]; congruence.
Qed.

Lemma set_then_clear (v k : Z) :
  0 <= v < 256 -> 0 <= k < 8 -> Z.testbit v k = false ->
  Z.land (Z.lor v (Z.shiftl 1 k)) (255 - Z.shiftl 1 k) = v.
Proof.
  intros Hv Hk Hbit. apply Z.bits_inj'. intros j Hj.
  rewrite testbit_clear, testbit_set by (try apply set_is_byte; lia).
  destruct (Z.eqb_spec j k) as [->|]; congruence.
Qed.

(** X5: No-op and undo: allocating a block that is not free, or freeing one
    that is, gives back the very same buffer; and the opposite operation
    undoes an operation that did change the bit. *)
Theorem block_operation_undo (bam : bytes) (track sector : Z) :
  sector_buffer bam ->
  (blockisfree bam track sector = Ok false ->
     allocateblock bam track sector = Ok bam
     /\ (d ← deallocateblock bam track sector; allocateblock d track sector)
        = Ok bam)
  /\ (blockisfree bam track sector = Ok true ->
        deallocateblock bam track sector = Ok bam
        /\ (a ← allocateblock bam track sector; deallocateblock a track sector)
           = Ok bam).
Proof.
  intros Hbuf. pose proof (sector_bit_range sector) as Hbit.
  pose proof (bitmap_position_lt track sector) as Hk.
  pose proof (bytes_ok_nth bam (bitmap_position track sector) (proj2 Hbuf))
    as Hv.
  split; intros Hfree;
    pose proof (blockisfree_Ok_range _ _ _ _ Hbuf Hfree) as Hoff;
    rewrite blockisfree_nth in Hfree by assumption;
    injection Hfree as Hfree;
    rewrite allocateblock_nth, deallocateblock_nth by assumption;
    cbn [mbind result_bind].
  - rewrite allocateblock_nth by (try apply set_buffer; assumption).
    rewrite nth_insert_eq by (rewrite (proj1 Hbuf); exact Hk).
    rewrite set_then_clear, clear_when_clear by assumption.
    rewrite list_insert_insert_eq.
    rewrite list_insert_id by now apply bitmap_position_lookup.
    split; reflexivity.
  - rewrite deallocateblock_nth by (try apply cleared_buffer; assumption).
    rewrite nth_insert_eq by (rewrite (proj1 Hbuf); exact Hk).
    rewrite clear_then_set, set_when_set by (assumption || lia).
    rewrite list_insert_insert_eq.
    rewrite list_insert_id by now apply bitmap_position_lookup.
    split; reflexivity.
Qed.

Lemma block_operation_undo_witness :
  deallocateblock bam_track1_free 1 0 = Ok bam_track1_free
  /\ (a ← allocateblock bam_track1_free 1 0; deallocateblock a 1 0)
     = Ok bam_track1_free.
Proof.
  apply (proj2 (block_operation_undo bam_track1_free 1 0
                  bam_track1_free_buffer)).
  vm_compute. reflexivity.
Defined.

(** ** Two blocks *)

Lemma sector_div8 (sector : Z) :
  0 <= sector < 24 ->
  0 <= sector / 8 < 3 /\ sector = 8 * (sector / 8) + sector mod 8.
Proof.
  intros Hs. split; [|apply Z.div_mod; lia].
  split; [apply Z.div_pos; lia|apply Z.div_lt_upper_bound; lia].
Qed.

Lemma valid_block_sector (track sector : Z) :
  valid_block track sector -> 0 <= sector < 24.
Proof. intros [_ Hs]. pose proof (getsectors_le_21 track). lia. Qed.

Lemma valid_block_position (track sector : Z) :
  valid_block track sector ->
  -256 <= bitmap_offset track sector < 256
  /\ bitmap_position track sector = Z.to_nat (bitmap_offset track sector).
Proof.
  intros Hv. apply valid_block_offset in Hv as [Hoff _].
  unfold bitmap_position. rewrite Z.mod_small by lia. lia.
Qed.

(** Two different blocks of the drive differ in the byte or in the bit. *)
Lemma valid_blocks_apart (t s t' s' : Z) :
  valid_block t s -> valid_block t' s' -> (t, s) <> (t', s') ->
  bitmap_position t s <> bitmap_position t' s' \/ s mod 8 <> s' mod 8.
Proof.
  intros Hv Hv' Hne.
  destruct (valid_block_position t s Hv) as [Hoff ->].
  destruct (valid_block_position t' s' Hv') as [Hoff' ->].
  apply valid_block_offset in Hv as Hlo, Hv' as Hlo'.
  apply valid_block_sector, sector_div8 in Hv as [Hq Hs].
  apply valid_block_sector, sector_div8 in Hv' as [Hq' Hs'].
  unfold bitmap_offset in *.
  destruct (Z.eq_dec (4 * t + 1 + s / 8) (4 * t' + 1 + s' / 8)) as [Heq|];
    [right|left; lia].
  intros Hbit. apply Hne. f_equal; lia.
Qed.

Lemma testbit_clear_other (v k j : Z) :
  0 <= v < 256 -> 0 <= k < 8 -> j <> k ->
  Z.testbit (Z.land v (255 - Z.shiftl 1 k)) j = Z.testbit v j.
Proof.
  intros Hv Hk Hne. rewrite testbit_clear by assumption.
  destruct (Z.eqb_spec j k); [contradiction|reflexivity].
Qed.

Lemma testbit_set_other (v k j : Z) :
  0 <= k -> j <> k -> Z.testbit (Z.lor v (Z.shiftl 1 k)) j = Z.testbit v j.
Proof.
  intros Hk Hne. rewrite testbit_set by assumption.
  destruct (Z.eqb_spec j k); [contradiction|reflexivity].
Qed.

(** X6: Frame on the other blocks: allocating or freeing one block of the drive
    does not change what [blockisfree] says of any other block. *)
Theorem blockisfree_other_block (bam : bytes) (t s t' s' : Z) :
  sector_buffer bam ->
  valid_block t s -> valid_block t' s' -> (t, s) <> (t', s') ->
  (a ← allocateblock bam t s; blockisfree a t' s') = blockisfree bam t' s'
  /\ (d ← deallocateblock bam t s; blockisfree d t' s')
     = blockisfree bam t' s'.
Proof.
  intros Hbuf Hv Hv' Hne.
  pose proof (valid_blocks_apart t s t' s' Hv Hv' Hne) as Hapart.
  apply valid_block_position in Hv as [Hoff _], Hv' as [Hoff' _].
  pose proof (sector_bit_range s) as Hbit.
  pose proof (sector_bit_range s') as Hbit'.
  pose proof (bitmap_position_lt t s) as Hk.
  pose proof (bytes_ok_nth bam (bitmap_position t s) (proj2 Hbuf)) as Hbyte.
  rewrite allocateblock_nth, deallocateblock_nth by assumption.
  cbn [mbind result_bind].
  rewrite !blockisfree_nth
    by (try apply cleared_buffer; try apply set_buffer; assumption).
  destruct (Nat.eq_dec (bitmap_position t s) (bitmap_position t' s'))
    as [Heq|Hkne].
  - destruct Hapart as [Hpos|Hbits]; [contradiction|]. rewrite <- Heq.
    rewrite !nth_insert_eq by (rewrite (proj1 Hbuf); exact Hk).
    rewrite testbit_clear_other, testbit_set_other by (assumption || lia).
    split; reflexivity.
  - rewrite !nth_insert_ne by exact Hkne. split; reflexivity.
Qed.

Lemma blockisfree_other_block_witness :
  (a ← allocateblock bam_track1_free 1 0; blockisfree a 1 1)
  = blockisfree bam_track1_free 1 1
  /\ (d ← deallocateblock bam_track1_free 1 0; blockisfree d 1 1)
     = blockisfree bam_track1_free 1 1.
Proof.
  apply (blockisfree_other_block bam_track1_free 1 0 1 1
           bam_track1_free_buffer).
  - split; [lia|]. change (getsectors 1) with 21. lia.
  - split; [lia|]. change (getsectors 1) with 21. lia.
  - discriminate.
Defined.

(** Updating two positions of a buffer, each from its own byte, in either
    order, when the two updates commute on a shared byte. *)
Lemma insert_update_commute (l : bytes) (k k' : nat) (f g : Z -> Z) :
  (k < length l)%nat -> (k' < length l)%nat ->
  (k = k' -> f (g (nth k l 0)) = g (f (nth k l 0))) ->
  <[k := f (nth k (<[k' := g (nth k' l 0)]> l) 0)]>
    (<[k' := g (nth k' l 0)]> l)
  = <[k' := g (nth k' (<[k := f (nth k l 0)]> l) 0)]>
      (<[k := f (nth k l 0)]> l).
Proof.
  intros Hk Hk' Hfg. destruct (Nat.eq_dec k k') as [<-|Hne].
  - rewrite !nth_insert_eq, !list_insert_insert_eq by assumption.
    now rewrite Hfg.
  - rewrite (nth_insert_ne l k' k), (nth_insert_ne l k k') by auto.
    now apply list_insert_insert_ne.
Qed.

Lemma clear_set_commute (v k k' : Z) :
  0 <= v < 256 -> 0 <= k < 8 -> 0 <= k' < 8 -> k <> k' ->
  Z.land (Z.lor v (Z.shiftl 1 k')) (255 - Z.shiftl 1 k)
  = Z.lor (Z.land v (255 - Z.shiftl 1 k)) (Z.shiftl 1 k').
Proof.
  intros Hv Hk Hk' Hne. apply Z.bits_inj'. intros j Hj.
  rewrite testbit_clear by (try apply set_is_byte; assumption).
  rewrite !testbit_set, testbit_clear by (assumption || lia).
  destruct (Z.eqb_spec j k) as [Hjk|], (Z.eqb_spec j k') as [Hjk'|];
    (reflexivity || lia).
Qed.

(** X7: Operations on two different blocks of the drive commute: the buffer
    after both does not depend on the order, for two allocations, two
    releases, or one of each. *)
Theorem block_operations_commute (bam : bytes) (t s t' s' : Z) :
  sector_buffer bam ->
  valid_block t s -> valid_block t' s' -> (t, s) <> (t', s') ->
  (a ← allocateblock bam t s; allocateblock a t' s')
  = (a ← allocateblock bam t' s'; allocateblock a t s)
  /\ (d ← deallocateblock bam t s; deallocateblock d t' s')
     = (d ← deallocateblock bam t' s'; deallocateblock d t s)
  /\ (d ← deallocateblock bam t' s'; allocateblock d t s)
     = (a ← allocateblock bam t s; deallocateblock a t' s').
Proof.
  intros Hbuf Hv Hv' Hne.
  pose proof (valid_blocks_apart t s t' s' Hv Hv' Hne) as Hapart.
  apply valid_block_position in Hv as [Hoff _], Hv' as [Hoff' _].
  pose proof (sector_bit_range s) as Hbit.
  pose proof (sector_bit_range s') as Hbit'.
  pose proof (bitmap_position_lt t s) as Hk.
  pose proof (bitmap_position_lt t' s') as Hk'.
  rewrite <- (proj1 Hbuf) in Hk, Hk'.
  pose proof (bytes_ok_nth bam (bitmap_position t s) (proj2 Hbuf)) as Hbyte.
  rewrite !allocateblock_nth, !deallocateblock_nth by assumption.
  cbn [mbind result_bind].
  rewrite !allocateblock_nth, !deallocateblock_nth
    by (try apply cleared_buffer; try apply set_buffer; assumption).
  split; [|split]; f_equal.
  - symmetry.
    apply (insert_update_commute bam _ _
             (fun v => Z.land v (255 - Z.shiftl 1 (s mod 8)))
             (fun v => Z.land v (255 - Z.shiftl 1 (s' mod 8))));
      [assumption..|].
    intros _. rewrite <- !Z.land_assoc. f_equal. apply Z.land_comm.
  - symmetry.
    apply (insert_update_commute bam _ _
             (fun v => Z.lor v (Z.shiftl 1 (s mod 8)))
             (fun v => Z.lor v (Z.shiftl 1 (s' mod 8))));
      [assumption..|].
    intros _. rewrite <- !Z.lor_assoc. f_equal. apply Z.lor_comm.
  - apply (insert_update_commute bam _ _
             (fun v => Z.land v (255 - Z.shiftl 1 (s mod 8)))
             (fun v => Z.lor v (Z.shiftl 1 (s' mod 8))));
      [assumption..|].
    intros Heq. destruct Hapart as [Hpos|Hbits]; [contradiction|].
    now apply clear_set_commute.
Qed.

Lemma block_operations_commute_witness :
  (a ← allocateblock bam_track1_free 1 0; allocateblock a 1 1)
  = (a ← allocateblock bam_track1_free 1 1; allocateblock a 1 0)
  /\ (d ← deallocateblock bam_track1_free 1 0; deallocateblock d 1 1)
     = (d ← deallocateblock bam_track1_free 1 1; deallocateblock d 1 0)
  /\ (d ← deallocateblock bam_track1_free 1 1; allocateblock d 1 0)
     = (a ← allocateblock bam_track1_free 1 0; deallocateblock a 1 1).
Proof.
  apply (block_operations_commute bam_track1_free 1 0 1 1
           bam_track1_free_buffer).
  - split; [lia|]. change (getsectors 1) with 21. lia.
  - split; [lia|]. change (getsectors 1) with 21. lia.
  - discriminate.
Defined.

(** ** The free counts *)

Lemma py_getitem_insert_other (l : bytes) (x : Z) (k : nat) (v : Z) :
  0 <= x -> Z.to_nat x <> k ->
  py_getitem (<[k := v]> l) x = py_getitem l x.
Proof.
  intros Hx Hne. unfold py_getitem. rewrite length_insert.
  destruct (py_index (Z.of_nat (length l)) x) as [j|e] eqn:Hj; [|reflexivity].
  simpl. rewrite list_lookup_insert_ne; [reflexivity|].
  revert Hj. unfold py_index. destruct (Z.ltb_spec x 0); [lia|].
  destruct (_ && _); [|discriminate]. intros [= <-]. auto.
Qed.

Lemma free_count_offsets_mod4 (x : Z) :
  In x (py_range 0x04 0x90 0x04) -> 0 <= x /\ x mod 4 = 0.
Proof.
  intros Hx.
  assert (H : forallb (fun x => (0 <=? x) && (x mod 4 =? 0))
                      (py_range 0x04 0x90 0x04) = true) by reflexivity.
  rewrite forallb_forall in H. apply H in Hx. lia.
Qed.

Lemma free_counts_insert (bam : bytes) (k : nat) (v : Z) :
  Z.of_nat k mod 4 <> 0 ->
  getblocksfree (<[k := v]> bam) = getblocksfree bam
  /\ getallocated (<[k := v]> bam) = getallocated bam.
Proof.
  intros Hk.
  assert (Hread : forall x, In x (py_range 0x04 0x90 0x04) ->
            py_getitem (<[k := v]> bam) x = py_getitem bam x).
  { intros x Hx. apply free_count_offsets_mod4 in Hx as [Hx Hmod].
    apply py_getitem_insert_other; [exact Hx|].
    intros <-. rewrite Z2Nat.id in Hk by exact Hx. contradiction. }
  unfold getblocksfree, getallocated.
  split; apply for_each_ext; intros x Hx s; rewrite (Hread x Hx); reflexivity.
Qed.

Lemma bitmap_position_mod4 (track sector : Z) :
  0 <= sector < 24 -> Z.of_nat (bitmap_position track sector) mod 4 <> 0.
Proof.
  intros Hs. apply sector_div8 in Hs as [Hq _].
  unfold bitmap_position, bitmap_offset.
  set (off := 4 * track + 1 + sector / 8).
  pose proof (Z.mod_pos_bound off 256 ltac:(lia)) as Hr.
  pose proof (Z.div_mod off 256 ltac:(lia)) as Hoff.
  rewrite Z2Nat.id by lia.
  pose proof (Z.div_mod (off mod 256) 4 ltac:(lia)) as Hr4.
  pose proof (Z.mod_pos_bound (off mod 256) 4 ltac:(lia)).
  unfold off in *. lia.
Qed.

Lemma block_write_Ok (bam bam' : bytes) (track sector : Z) :
  sector_buffer bam ->
  allocateblock bam track sector = Ok bam'
  \/ deallocateblock bam track sector = Ok bam' ->
  exists v, bam' = <[bitmap_position track sector := v]> bam.
Proof.
  intros Hbuf Hop.
  assert (Hlen : Z.of_nat (length bam) = 256)
    by (rewrite (proj1 Hbuf); reflexivity).
  assert (Hoff : -256 <= bitmap_offset track sector < 256).
  { destruct (Z.lt_ge_cases (bitmap_offset track sector) (-256)) as [Hlo|Hlo];
      [|destruct (Z.lt_ge_cases (bitmap_offset track sector) 256) as [Hhi|Hhi];
        [lia|]].
    - destruct (block_ops_raise bam track sector IndexError) as (_ & Ha & Hd);
        [apply py_index_out; lia|].
      rewrite Ha, Hd in Hop. destruct Hop; discriminate.
    - destruct (block_ops_raise bam track sector IndexError) as (_ & Ha & Hd);
        [apply py_index_out; lia|].
      rewrite Ha, Hd in Hop. destruct Hop; discriminate. }
  rewrite allocateblock_nth, deallocateblock_nth in Hop by assumption.
  destruct Hop as [[= <-]|[= <-]]; eauto.
Qed.

(** X8: The free counts go stale: for a sector of the 24-bit bitmap, on any
    track the buffer reaches, [allocateblock] and [deallocateblock] leave
    the results of [getblocksfree] and [getallocated] as they were. *)
Theorem free_counts_unchanged (bam bam' : bytes) (track sector : Z) :
  sector_buffer bam -> 0 <= sector < 24 ->
  allocateblock bam track sector = Ok bam'
  \/ deallocateblock bam track sector = Ok bam' ->
  getblocksfree bam' = getblocksfree bam
  /\ getallocated bam' = getallocated bam.
Proof.
  intros Hbuf Hs Hop.
  destruct (block_write_Ok bam bam' track sector Hbuf Hop) as [v ->].
  apply free_counts_insert, bitmap_position_mod4, Hs.
Qed.

Lemma free_counts_unchanged_witness :
  getblocksfree (<[5%nat := 0xFE]> bam_track1_free)
  = getblocksfree bam_track1_free
  /\ getallocated (<[5%nat := 0xFE]> bam_track1_free)
     = getallocated bam_track1_free.
Proof.
  apply (free_counts_unchanged bam_track1_free _ 1 0 bam_track1_free_buffer).
  - lia.
  - left. vm_compute. reflexivity.
Defined.

Lemma fold_allocated (g : Z -> Z) (tracks : list Z) (z : Z) :
  fold_left (fun acc t => acc + (getsectors t - g t)) tracks z
  = z + fold_right Z.add 0 (map getsectors tracks)
    - fold_right Z.add 0 (map g tracks).
Proof.
  revert z. induction tracks as [|t tracks IH]; intros z; simpl; [lia|].
  rewrite IH. lia.
Qed.

(** The loop of [getallocated], track by track: offset [x] belongs to
    track [x / 4]. *)
Lemma allocated_by_track (add sub g : Z -> Z -> Z) (f : Z -> Z) :
  fold_left (fun acc x => add acc (sub (getsectors (x / 4)) (f x)))
            (py_range 0x04 0x90 0x04) 0
  = fold_left (fun acc t => add acc (sub (getsectors t) (f (4 * t))))
              (py_range 1 36 1) 0.
Proof. vm_compute. reflexivity. Qed.

Lemma free_count_sum_total (bam : bytes) :
  free_count_sum bam = free_count_total bam - free_count bam 18.
Proof.
  unfold free_count_sum, free_count_total.
  change (fun track => nth (Z.to_nat (4 * track)) bam 0) with (free_count bam).
  generalize (free_count bam). intros g.
  change (py_range 1 36 1)
    with [1; 2; 3; 4; 5; 6; 7; 8; 9; 10; 11; 12; 13; 14; 15; 16; 17; 18;
          19; 20; 21; 22; 23; 24; 25; 26; 27; 28; 29; 30; 31; 32; 33; 34;
          35].
  cbv - [Z.add Z.sub]. lia.
Qed.

Lemma getallocated_total (bam : bytes) :
  140 < Z.of_nat (length bam) ->
  getallocated bam = Ok (683 - free_count_total bam).
Proof.
  intros Hlen. unfold getallocated.
  rewrite (for_each_pure _
             (fun allocated x =>
                allocated + (getsectors (x / 4) - nth (Z.to_nat x) bam 0))).
  - f_equal.
    rewrite (allocated_by_track Z.add Z.sub Z.add
               (fun x => nth (Z.to_nat x) bam 0)).
    rewrite (fold_allocated (fun t => nth (Z.to_nat (4 * t)) bam 0)).
    unfold free_count_total.
    change (fun t => nth (Z.to_nat (4 * t)) bam 0) with (free_count bam).
    change (fold_right Z.add 0 (map getsectors (py_range 1 36 1))) with 683.
    lia.
  - intros x Hx s. apply free_count_offsets_bounds in Hx.
    rewrite py_getitem_nth by lia. reflexivity.
Qed.

Lemma getallocated_short (bam : bytes) :
  Z.of_nat (length bam) <= 140 -> getallocated bam = Raise IndexError.
Proof.
  intros Hlen. unfold getallocated.
  change (py_range 0x04 0x90 0x04) with (py_range 0x04 0x8C 0x04 ++ [0x8C]).
  rewrite for_each_app.
  match goal with |- mbind _ ?m = _ => destruct m as [s|e] eqn:Hloop end;
    simpl.
  - rewrite py_getitem_out by lia. reflexivity.
  - f_equal. eapply for_each_Raise; [|exact Hloop].
    intros s x e'. cbv beta.
    destruct (py_getitem bam x) as [v|e''] eqn:Hx; simpl; [discriminate|].
    intros [= <-]. now apply py_getitem_Raise in Hx.
Qed.

(** X9: [getallocated] is 683, the sectors of tracks 1 to 35, less the 35
    free-count bytes, so together with [getblocksfree] and the free count of
    track 18 it makes 683; both need a buffer of 141 bytes and raise
    [IndexError] on a shorter one. *)
Theorem getallocated_complement (bam : bytes) :
  (140 < Z.of_nat (length bam) ->
     exists free allocated,
       getblocksfree bam = Ok free /\ getallocated bam = Ok allocated
       /\ allocated = 683 - free_count_total bam
       /\ allocated + free + free_count bam 18 = 683)
  /\ (Z.of_nat (length bam) <= 140 ->
        getblocksfree bam = Raise IndexError
        /\ getallocated bam = Raise IndexError).
Proof.
  split.
  - intros Hlen. eexists _, _.
    split; [now apply getblocksfree_sum|].
    split; [now apply getallocated_total|].
    split; [reflexivity|]. rewrite free_count_sum_total. lia.
  - intros Hlen. split; [now apply getblocksfree_short|].
    now apply getallocated_short.
Qed.

Lemma getallocated_complement_witness :
  exists free allocated,
    getblocksfree bam_track1_free = Ok free
    /\ getallocated bam_track1_free = Ok allocated
    /\ allocated = 683 - free_count_total bam_track1_free
    /\ allocated + free + free_count bam_track1_free 18 = 683.
Proof.
  apply (proj1 (getallocated_complement bam_track1_free)).
  vm_compute. reflexivity.
Defined.

Lemma sum_bytes_bounds (g : Z -> Z) (l : list Z) :
  (forall x, In x l -> 0 <= g x < 256) ->
  0 <= fold_right Z.add 0 (map g l) <= 255 * Z.of_nat (length l).
Proof.
  induction l as [|x l IH]; intros Hg; [simpl; lia|].
  cbn [map fold_right length]. rewrite Nat2Z.inj_succ.
  pose proof (Hg x (or_introl eq_refl)).
  assert (0 <= fold_right Z.add 0 (map g l) <= 255 * Z.of_nat (length l))
    by (apply IH; intros y Hy; apply Hg; now right).
  lia.
Qed.

Lemma sum_map_le (g h : Z -> Z) (l : list Z) :
  (forall x, In x l -> g x <= h x) ->
  fold_right Z.add 0 (map g l) <= fold_right Z.add 0 (map h l).
Proof.
  induction l as [|x l IH]; intros Hgh; [simpl; lia|].
  cbn [map fold_right]. pose proof (Hgh x (or_introl eq_refl)).
  assert (fold_right Z.add 0 (map g l) <= fold_right Z.add 0 (map h l))
    by (apply IH; intros y Hy; apply Hgh; now right).
  lia.
Qed.

Lemma tracks_1_35 (t : Z) : In t (py_range 1 36 1) -> 1 <= t <= 35.
Proof.
  unfold py_range. rewrite Z.div_1_r. intros Ht.
  apply range_from_In_inv in Ht. lia.
Qed.

(** X10: Bounds of the two statistics on a 256-byte BAM.  [getblocksfree] lies
    in [0, 8670]; [getallocated] lies in [-8242, 683] and is negative when
    the free-count bytes add up to more than 683.  When no free count
    exceeds the sectors of its track, [getallocated] is not negative and
    [getblocksfree] is at most 664. *)
Theorem free_counts_bounds (bam : bytes) :
  sector_buffer bam ->
  exists free allocated,
    getblocksfree bam = Ok free /\ getallocated bam = Ok allocated
    /\ 0 <= free <= 8670 /\ -8242 <= allocated <= 683
    /\ ((forall t, 1 <= t <= 35 -> free_count bam t <= getsectors t) ->
        0 <= allocated /\ free <= 664).
Proof.
  intros [Hlen Hok].
  exists (free_count_sum bam), (683 - free_count_total bam).
  split; [apply getblocksfree_sum; lia|].
  split; [apply getallocated_total; lia|].
  assert (Hbyte : forall t, 0 <= free_count bam t < 256)
    by (intros t; now apply bytes_ok_nth).
  pose proof (sum_bytes_bounds (free_count bam) (py_range 1 36 1)
                ltac:(intros; apply Hbyte)) as Htotal.
  fold (free_count_total bam) in Htotal.
  change (Z.of_nat (length (py_range 1 36 1))) with 35 in Htotal.
  pose proof (Hbyte 18) as H18. pose proof (free_count_sum_total bam) as Hsum.
  assert (Hfree : 0 <= free_count_sum bam <= 8670).
  { pose proof (sum_bytes_bounds (free_count bam)
                  (List.filter (fun t => negb (t =? 18)) (py_range 1 36 1))
                  ltac:(intros; apply Hbyte)) as Hf.
    fold (free_count_sum bam) in Hf. exact Hf. }
  split; [exact Hfree|]. split; [lia|].
  intros Hinv.
  pose proof (sum_map_le (free_count bam) getsectors (py_range 1 36 1)
                ltac:(intros t Ht; apply Hinv, tracks_1_35, Ht)) as Hle.
  fold (free_count_total bam) in Hle.
  change (fold_right Z.add 0 (map getsectors (py_range 1 36 1))) with 683
    in Hle.
  pose proof (sum_map_le (free_count bam) getsectors
                (List.filter (fun t => negb (t =? 18)) (py_range 1 36 1)))
    as Hle'.
  fold (free_count_sum bam) in Hle'.
  split; [lia|]. apply Hle'.
  intros t Ht. apply filter_In in Ht as [Ht _]. apply Hinv, tracks_1_35, Ht.
Qed.

Lemma free_counts_bounds_witness :
  exists free allocated,
    getblocksfree bam_track1_free = Ok free
    /\ getallocated bam_track1_free = Ok allocated
    /\ 0 <= free <= 8670 /\ -8242 <= allocated <= 683
    /\ ((forall t, 1 <= t <= 35 ->
           free_count bam_track1_free t <= getsectors t) ->
        0 <= allocated /\ free <= 664).
Proof. exact (free_counts_bounds bam_track1_free bam_track1_free_buffer). Defined.

(** ** The disk label *)

Lemma py_slice_insert_before {A : Type} (l : list A) (k : nat) (v : A)
    (start stop : Z) :
  (k < length l)%nat -> Z.of_nat k < start ->
  py_slice (<[k := v]> l) start stop = py_slice l start stop.
Proof.
  intros Hk Hstart. unfold py_slice. rewrite length_insert.
  rewrite drop_insert_lt; [reflexivity|].
  unfold py_clamp. destruct (Z.ltb_spec start 0); lia.
Qed.

(** X11: Allocating or freeing a block of tracks 1 to 35 leaves the disk name,
    the disk ID and the header line as they were: the bitmap bytes of those
    tracks end before offset 0x90. *)
Theorem disk_label_unchanged (bam bam' : bytes) (track sector : Z) :
  sector_buffer bam -> valid_block track sector -> track <= 35 ->
  allocateblock bam track sector = Ok bam'
  \/ deallocateblock bam track sector = Ok bam' ->
  getdiskname bam' = getdiskname bam
  /\ getdiskident bam' = getdiskident bam
  /\ getheader bam' = getheader bam.
Proof.
  intros Hbuf Hv H35 Hop.
  destruct (block_write_Ok bam bam' track sector Hbuf Hop) as [v ->].
  destruct (valid_block_position track sector Hv) as [_ Hpos].
  pose proof (bitmap_position_lt track sector) as Hk.
  rewrite <- (proj1 Hbuf) in Hk.
  assert (Hbefore : Z.of_nat (bitmap_position track sector) < 0x90).
  { rewrite Hpos. apply valid_block_sector, sector_div8 in Hv as [Hq _].
    unfold bitmap_offset. lia. }
  assert (Hslice : forall start stop, 0x90 <= start ->
            py_slice (<[bitmap_position track sector := v]> bam) start stop
            = py_slice bam start stop).
  { intros start stop Hs. apply py_slice_insert_before; [exact Hk|lia]. }
  unfold getheader, getdiskname, getdiskident.
  rewrite !Hslice by lia. repeat split; reflexivity.
Qed.

Lemma disk_label_unchanged_witness :
  getdiskname (<[5%nat := 0xFE]> bam_track1_free)
  = getdiskname bam_track1_free
  /\ getdiskident (<[5%nat := 0xFE]> bam_track1_free)
     = getdiskident bam_track1_free
  /\ getheader (<[5%nat := 0xFE]> bam_track1_free)
     = getheader bam_track1_free.
Proof.
  apply (disk_label_unchanged bam_track1_free _ 1 0 bam_track1_free_buffer).
  - split; [lia|]. change (getsectors 1) with 21. lia.
  - lia.
  - left. vm_compute. reflexivity.
Defined.

(** ** The codec on whole strings *)

Lemma PETdelpadding_acc (line acc : bytes) :
  fold_left (fun result x => if x =? 0xA0 then result else result ++ [x])
            line acc
  = acc ++ List.filter (fun x => negb (x =? 0xA0)) line.
Proof.
  revert acc. induction line as [|x line IH]; intros acc; simpl.
  - now rewrite app_nil_r.
  - rewrite IH. destruct (x =? 0xA0); simpl; [reflexivity|].
    now rewrite <- app_assoc.
Qed.

Lemma PETdelpadding_as_filter (line : bytes) :
  PETdelpadding line = List.filter (fun x => negb (x =? 0xA0)) line.
Proof. unfold PETdelpadding. now rewrite PETdelpadding_acc. Qed.

(** X12: [PETdelpadding] keeps, in their order, the bytes that are not 0xA0 and
    drops every 0xA0, wherever it stands; so its result holds no 0xA0, a
    second pass changes nothing, and a line without 0xA0 comes back whole. *)
Theorem PETdelpadding_filter (line : bytes) :
  PETdelpadding line = List.filter (fun x => negb (x =? 0xA0)) line
  /\ ~ In 0xA0 (PETdelpadding line)
  /\ PETdelpadding (PETdelpadding line) = PETdelpadding line
  /\ (~ In 0xA0 line -> PETdelpadding line = line)
  /\ (length (PETdelpadding line) <= length line)%nat.
Proof.
  assert (Heq : forall l, PETdelpadding l
                          = List.filter (fun x => negb (x =? 0xA0)) l).
  { intros l. unfold PETdelpadding. now rewrite PETdelpadding_acc. }
  assert (Hid : forall l, ~ In 0xA0 l ->
                  List.filter (fun x => negb (x =? 0xA0)) l = l).
  { induction l as [|x l IH]; intros Hl; [reflexivity|]. simpl.
    destruct (Z.eqb_spec x 0xA0) as [->|]; simpl.
    - exfalso. apply Hl. now left.
    - rewrite IH; [reflexivity|]. intros Hx. apply Hl. now right. }
  assert (Hno : ~ In 0xA0 (List.filter (fun x => negb (x =? 0xA0)) line)).
  { intros Hin. apply filter_In in Hin as [_ Hin]. discriminate. }
  rewrite !Heq. split; [reflexivity|]. split; [exact Hno|].
  split; [now apply Hid|]. split; [apply Hid|apply filter_length_le].
Qed.

Lemma PETdelpadding_filter_witness :
  PETdelpadding [0x41; 0x42; 0x43] = [0x41; 0x42; 0x43].
Proof.
  apply (proj1 (proj2 (proj2 (proj2
           (PETdelpadding_filter [0x41; 0x42; 0x43]))))).
  simpl. intuition discriminate.
Defined.

Section TableLoop.
Variable table : list Z.
Hypothesis table_256 : length table = 256%nat.

Let lookup_loop (line acc : list Z) : result (list Z) :=
  for_each (fun result x => c ← py_getitem table x; Ok (result ++ [c]))
           line acc.

Lemma table_loop_map (line acc : list Z) :
  bytes_ok line ->
  lookup_loop line acc
  = Ok (acc ++ map (fun x => nth (Z.to_nat x) table 0) line).
Proof.
  unfold lookup_loop. revert acc.
  induction line as [|x line IH]; intros acc Hline; simpl.
  - now rewrite app_nil_r.
  - inversion Hline; subst.
    rewrite py_getitem_nth by (rewrite table_256; lia). simpl.
    rewrite IH by assumption. now rewrite <- app_assoc.
Qed.

Lemma table_loop_raise (line acc : list Z) :
  Exists (fun x => x < -256 \/ 256 <= x) line ->
  lookup_loop line acc = Raise IndexError.
Proof.
  unfold lookup_loop. revert acc.
  induction line as [|x line IH]; intros acc Hbad; [inversion Hbad|].
  simpl. destruct (py_getitem table x) as [c|e] eqn:Hx; simpl.
  - apply IH. inversion Hbad as [? ? Hout|]; subst; [|assumption].
    rewrite py_getitem_out in Hx by (rewrite table_256; lia). discriminate.
  - f_equal. now apply py_getitem_Raise in Hx.
Qed.
End TableLoop.

Lemma table_entries_bytes (table : list Z) (line : list Z) :
  bytes_okb table = true ->
  bytes_ok (map (fun x => nth (Z.to_nat x) table 0) line).
Proof.
  intros Htab. apply bytes_okb_ok in Htab. apply Forall_map, Forall_forall.
  intros x _. now apply bytes_ok_nth.
Qed.

Lemma PETtoASC_decode (line : bytes) :
  bytes_ok line -> PETtoASC line = Ok (map pet_decode line).
Proof. exact (table_loop_map PETtoASCtable eq_refl line []). Qed.

(** X13: [PETtoASC] on bytes never raises: it gives, byte for byte, the entries
    of [PETtoASCtable], a string as long as the line of characters below
    256. *)
Theorem PETtoASC_bytes (line : bytes) :
  bytes_ok line ->
  PETtoASC line = Ok (map pet_decode line)
  /\ length (map pet_decode line) = length line
  /\ bytes_ok (map pet_decode line).
Proof.
  intros Hline. split; [|split].
  - exact (table_loop_map PETtoASCtable eq_refl line [] Hline).
  - apply length_map.
  - now apply table_entries_bytes.
Qed.

Lemma PETtoASC_bytes_witness :
  PETtoASC [0x48; 0x49] = Ok (map pet_decode [0x48; 0x49])
  /\ length (map pet_decode [0x48; 0x49]) = length [0x48; 0x49]
  /\ bytes_ok (map pet_decode [0x48; 0x49]).
Proof.
  apply (PETtoASC_bytes [0x48; 0x49]). apply bytes_okb_ok. reflexivity.
Defined.

(** X14: [ASCtoPET] is defined on the strings of Latin-1 only: with every code
    point below 256 it gives the entries of [ASCtoPETtable], character by
    character; with one code point from 256 on it raises [IndexError]. *)
Theorem ASCtoPET_domain (line : str) :
  str_ok line ->
  (Forall (fun c => c < 256) line ->
     ASCtoPET line = Ok (map asc_encode line)
     /\ bytes_ok (map asc_encode line))
  /\ (Exists (fun c => 256 <= c) line -> ASCtoPET line = Raise IndexError).
Proof.
  intros Hstr. split.
  - intros Hlatin.
    assert (Hline : bytes_ok line).
    { unfold bytes_ok, str_ok in *. rewrite Forall_forall in *.
      intros c Hc. pose proof (Hstr c Hc). pose proof (Hlatin c Hc). lia. }
    split; [|now apply table_entries_bytes].
    exact (table_loop_map ASCtoPETtable eq_refl line [] Hline).
  - intros Hwide. apply (table_loop_raise ASCtoPETtable eq_refl).
    eapply Exists_impl; [exact Hwide|]. intros c Hc. now right.
Qed.

Lemma ASCtoPET_domain_witness :
  (ASCtoPET [0x48; 0x49] = Ok (map asc_encode [0x48; 0x49])
   /\ bytes_ok (map asc_encode [0x48; 0x49]))
  /\ ASCtoPET [0x48; 0x20AC] = Raise IndexError.
Proof.
  split.
  - apply (proj1 (ASCtoPET_domain [0x48; 0x49]
                    ltac:(repeat constructor; lia))).
    repeat constructor; lia.
  - apply (proj2 (ASCtoPET_domain [0x48; 0x20AC]
                    ltac:(repeat constructor; lia))).
    right. left. lia.
Defined.

Lemma round_trips_entries (c : Z) :
  round_trips c ->
  0 <= c < 256 /\ pet_decode (asc_encode c) = c /\ asc_encode (pet_decode c) = c.
Proof.
  intros [Hc Hne].
  pose (P := fun c => (c =? 0x09)
                      || ((pet_decode (asc_encode c) =? c)
                          && (asc_encode (pet_decode c) =? c))).
  assert (HP : P c = true).
  { apply (forallb_range P 0 0xE0); [vm_compute; reflexivity|lia]. }
  unfold P in HP. destruct (Z.eqb_spec c 0x09); [contradiction|].
  simpl in HP. apply andb_prop in HP as [H1 H2].
  apply Z.eqb_eq in H1, H2. repeat split; (lia || assumption).
Qed.

Lemma round_trips_map (f g : Z -> Z) (line : list Z) :
  (forall c, round_trips c -> g (f c) = c) ->
  Forall round_trips line -> map g (map f line) = line.
Proof.
  intros Hgf Hline. rewrite map_map.
  induction Hline as [|c line Hc _ IH]; [reflexivity|].
  simpl. now rewrite Hgf, IH.
Qed.

Lemma round_trips_bytes (line : list Z) :
  Forall round_trips line -> bytes_ok line.
Proof.
  intros Hline. eapply Forall_impl; [exact Hline|].
  intros c Hc. now apply round_trips_entries in Hc.
Qed.

(** X15: What [ASCtoPET] returns can be decoded through the table.
    [ASCtoPET] returns a string, and [PETtoASC] takes bytes, not a string
    (it subscripts its table with the items of its argument), so the two
    do not compose as they stand.  For a string whose code points are all
    below 0xE0 and none of them 0x09, [ASCtoPET] succeeds, its result has
    the length of the string and ordinals below 256, and the entries of
    [PETtoASCtable] at those ordinals are, in order, the code points of
    the string. *)
Theorem ASCtoPET_decodable (line : str) :
  Forall round_trips line ->
  exists p,
    ASCtoPET line = Ok p /\ length p = length line /\ bytes_ok p
    /\ (forall i o, p !! i = Some o ->
          exists c, line !! i = Some c
                    /\ py_getitem PETtoASCtable o = Ok c)
    /\ map pet_decode p = line.
Proof.
  intros Hline. pose proof (round_trips_bytes line Hline) as Hbytes.
  exists (map asc_encode line).
  assert (Hp : bytes_ok (map asc_encode line))
    by now apply table_entries_bytes.
  assert (Hback : map pet_decode (map asc_encode line) = line).
  { apply (round_trips_map asc_encode pet_decode); [|exact Hline].
    intros c Hc. now apply round_trips_entries in Hc. }
  split; [exact (table_loop_map ASCtoPETtable eq_refl line [] Hbytes)|].
  split; [apply length_map|]. split; [exact Hp|]. split; [|exact Hback].
  intros i o Hi. apply list_lookup_fmap_Some in Hi as (c & -> & Hc).
  exists c. split; [exact Hc|].
  assert (Hrt : round_trips c).
  { rewrite Forall_forall in Hline. eapply Hline, list_elem_of_lookup_2, Hc. }
  apply round_trips_entries in Hrt as (Hrange & Hdec & _).
  rewrite py_getitem_nth.
  - fold (pet_decode (asc_encode c)). now rewrite Hdec.
  - change (Z.of_nat (length PETtoASCtable)) with 256.
    unfold bytes_ok in Hp. rewrite Forall_forall in Hp. apply Hp.
    apply list_elem_of_fmap. exists c. split; [reflexivity|].
    eapply list_elem_of_lookup_2, Hc.
Qed.

Lemma ASCtoPET_decodable_witness :
  exists p,
    ASCtoPET (py_str "Hello-1") = Ok p
    /\ length p = length (py_str "Hello-1") /\ bytes_ok p
    /\ (forall i o, p !! i = Some o ->
          exists c, py_str "Hello-1" !! i = Some c
                    /\ py_getitem PETtoASCtable o = Ok c)
    /\ map pet_decode p = py_str "Hello-1".
Proof.
  apply (ASCtoPET_decodable (py_str "Hello-1")).
  repeat constructor; vm_compute; try discriminate; reflexivity.
Defined.

(** X16: Decode then encode: a line of bytes that are all below 0xE0 and none of
    them 0x09 comes back unchanged from [PETtoASC] followed by [ASCtoPET]. *)
Theorem PETtoASC_ASCtoPET_string (line : bytes) :
  Forall round_trips line ->
  (s ← PETtoASC line; ASCtoPET s) = Ok line.
Proof.
  intros Hline. pose proof (round_trips_bytes line Hline) as Hbytes.
  unfold PETtoASC.
  rewrite (table_loop_map PETtoASCtable eq_refl line [] Hbytes).
  cbn [mbind result_bind app]. unfold ASCtoPET.
  rewrite (table_loop_map ASCtoPETtable eq_refl)
    by now apply table_entries_bytes.
  cbn [app]. f_equal.
  apply (round_trips_map pet_decode asc_encode); [|exact Hline].
  intros c Hc. now apply round_trips_entries in Hc.
Qed.

Lemma PETtoASC_ASCtoPET_string_witness :
  (s ← PETtoASC [0xC8; 0x45; 0x4C]; ASCtoPET s) = Ok [0xC8; 0x45; 0x4C].
Proof.
  apply (PETtoASC_ASCtoPET_string [0xC8; 0x45; 0x4C]).
  repeat constructor; vm_compute; try discriminate; reflexivity.
Defined.

(** X17: Letter case is swapped: the unshifted PETSCII letters 0x41..0x5A decode
    to the lower-case ASCII letters and the shifted ones 0xC1..0xDA to the
    upper-case letters, while 0x20..0x40 (space, punctuation, digits) stay;
    [ASCtoPET] sends the upper-case ASCII letters to 0xC1..0xDA and the
    lower-case ones to 0x41..0x5A. *)
Theorem PETSCII_case_swap (b : Z) :
  (0x41 <= b <= 0x5A ->
     PETtoASC [b] = Ok [b + 0x20] /\ ASCtoPET [b] = Ok [b + 0x80])
  /\ (0xC1 <= b <= 0xDA -> PETtoASC [b] = Ok [b - 0x80])
  /\ (0x61 <= b <= 0x7A -> ASCtoPET [b] = Ok [b - 0x20])
  /\ (0x20 <= b <= 0x40 -> PETtoASC [b] = Ok [b] /\ ASCtoPET [b] = Ok [b]).
Proof.
  assert (Hdec : forall lo hi d x, lo <= x < hi ->
            forallb (fun x => pet_decode x =? x + d) (py_range lo hi 1) = true ->
            0 <= lo -> hi <= 256 -> PETtoASC [x] = Ok [x + d]).
  { intros lo hi d x Hx Hall Hlo Hhi.
    pose proof (forallb_range _ lo hi Hall x Hx) as Hd.
    apply Z.eqb_eq in Hd. rewrite <- Hd.
    apply (table_loop_map PETtoASCtable eq_refl [x] []).
    constructor; [lia|constructor]. }
  assert (Henc : forall lo hi d x, lo <= x < hi ->
            forallb (fun x => asc_encode x =? x + d) (py_range lo hi 1) = true ->
            0 <= lo -> hi <= 256 -> ASCtoPET [x] = Ok [x + d]).
  { intros lo hi d x Hx Hall Hlo Hhi.
    pose proof (forallb_range _ lo hi Hall x Hx) as Hd.
    apply Z.eqb_eq in Hd. rewrite <- Hd.
    apply (table_loop_map ASCtoPETtable eq_refl [x] []).
    constructor; [lia|constructor]. }
  split; [|split; [|split]]; intros Hb.
  - split.
    + apply (Hdec 0x41 0x5B 0x20); (lia || reflexivity).
    + apply (Henc 0x41 0x5B 0x80); (lia || reflexivity).
  - apply (Hdec 0xC1 0xDB (-0x80)); (lia || reflexivity).
  - apply (Henc 0x61 0x7B (-0x20)); (lia || reflexivity).
  - rewrite <- (Z.add_0_r b) at 2 4. split.
    + apply (Hdec 0x20 0x41 0); (lia || reflexivity).
    + apply (Henc 0x20 0x41 0); (lia || reflexivity).
Qed.

Lemma PETSCII_case_swap_witness :
  PETtoASC [0x48] = Ok [0x48 + 0x20] /\ ASCtoPET [0x48] = Ok [0x48 + 0x80].
Proof. apply (proj1 (PETSCII_case_swap 0x48)). lia. Defined.

(** ** The header line *)

Lemma sector_slice_length (bam : bytes) (start stop : Z) :
  sector_buffer bam -> 0 <= start <= stop -> stop <= 256 ->
  length (py_slice bam start stop) = Z.to_nat (stop - start).
Proof.
  intros [Hlen _] Hs Hstop.
  pose proof (py_slice_length bam start stop ltac:(lia) ltac:(lia)). lia.
Qed.

Lemma py_upper_length (s : str) :
  ~ In 0xDF s -> length (py_upper s) = length s.
Proof.
  unfold py_upper. induction s as [|c s IH]; intros Hs; [reflexivity|].
  cbn [map concat]. rewrite length_app, IH by (intros H; apply Hs; now right).
  assert (Hc : c <> 0xDF) by (intros ->; apply Hs; now left).
  unfold py_upper_char.
  repeat match goal with
         | |- context [if ?b then _ else _] => destruct b eqn:?
         end; try reflexivity.
  apply Z.eqb_eq in Heqb1. contradiction.
Qed.

Lemma pet_decode_sharp_s (x : Z) :
  0 <= x < 256 -> pet_decode x = 0xDF -> x = 0x7F.
Proof.
  intros Hx Hd.
  pose (P := fun x => negb (pet_decode x =? 0xDF) || (x =? 0x7F)).
  assert (HP : P x = true).
  { apply (forallb_range P 0 256); [vm_compute; reflexivity|lia]. }
  unfold P in HP. rewrite Hd in HP. simpl in HP. now apply Z.eqb_eq.
Qed.

Lemma decoded_sharp_s (line : bytes) :
  bytes_ok line -> In 0xDF (map pet_decode line) -> In 0x7F line.
Proof.
  intros Hline Hin. apply in_map_iff in Hin as (x & Hd & Hx).
  unfold bytes_ok in Hline. rewrite Forall_forall in Hline.
  apply list_elem_of_In in Hx as Hx'. apply Hline in Hx'.
  now rewrite <- (pet_decode_sharp_s x Hx' Hd).
Qed.

(** X18: The layout of the header on a 256-byte BAM: a zero, four spaces and a
    double quote, the name (at most 16 characters) with its closing quote
    padded to 19, the two characters of the ID and one space, the two
    characters of
    the DOS type, all through [upper].  It is 30 characters long unless a
    byte 0x7F of a label field decodes to the sharp s, which [upper] turns
    into two letters. *)
Theorem getheader_layout (bam : bytes) :
  sector_buffer bam ->
  let name := map pet_decode (PETdelpadding (py_slice bam 0x90 0xA0)) in
  let id := map pet_decode (py_slice bam 0xA2 0xA4) in
  let dos := map pet_decode (py_slice bam 0xA5 0xA7) in
  getdiskname bam = Ok name /\ getdiskident bam = Ok id
  /\ (length name <= 16)%nat /\ length id = 2%nat /\ length dos = 2%nat
  /\ getheader bam
     = Ok (py_upper (py_str "0    " ++ dquote ++ name ++ dquote
                     ++ repeat 0x20 (18 - length name)
                     ++ id ++ [0x20] ++ dos))
  /\ (~ In 0x7F (py_slice bam 0x90 0xA0) ->
      ~ In 0x7F (py_slice bam 0xA2 0xA4) ->
      ~ In 0x7F (py_slice bam 0xA5 0xA7) ->
      exists h, getheader bam = Ok h /\ length h = 30%nat).
Proof.
  intros Hbuf name id dos. pose proof Hbuf as [_ Hok].
  assert (Hname : getdiskname bam = Ok name).
  { apply (table_loop_map PETtoASCtable eq_refl _ []).
    now apply PETdelpadding_ok, py_slice_ok. }
  assert (Hid : getdiskident bam = Ok id).
  { apply (table_loop_map PETtoASCtable eq_refl _ []). now apply py_slice_ok. }
  assert (Hdos : PETtoASC (py_slice bam 0xA5 0xA7) = Ok dos).
  { apply (table_loop_map PETtoASCtable eq_refl _ []). now apply py_slice_ok. }
  assert (Hlname : (length name <= 16)%nat).
  { unfold name. rewrite length_map, PETdelpadding_as_filter.
    etransitivity; [apply filter_length_le|].
    rewrite (sector_slice_length bam 0x90 0xA0) by (assumption || lia). lia. }
  assert (Hlid : length id = 2%nat).
  { unfold id. rewrite length_map.
    now rewrite (sector_slice_length bam 0xA2 0xA4) by (assumption || lia). }
  assert (Hldos : length dos = 2%nat).
  { unfold dos. rewrite length_map.
    now rewrite (sector_slice_length bam 0xA5 0xA7) by (assumption || lia). }
  assert (Hhead : getheader bam
     = Ok (py_upper (py_str "0    " ++ dquote ++ name ++ dquote
                     ++ repeat 0x20 (18 - length name)
                     ++ id ++ [0x20] ++ dos))).
  { unfold getheader. rewrite Hname, Hid, Hdos. cbn [mbind result_bind].
    unfold py_ljust. rewrite length_app, Hlid. cbn [length dquote].
    replace (Z.to_nat (19 - Z.of_nat (length name + 1)))
      with (18 - length name)%nat by lia.
    change (repeat 32 (Z.to_nat (3 - Z.of_nat 2))) with [0x20].
    now rewrite <- !app_assoc. }
  repeat (split; [assumption|]).
  intros Hn Hi Hd. eexists. split; [exact Hhead|].
  rewrite py_upper_length.
  - rewrite !length_app, Hlid, Hldos, repeat_length. cbn. lia.
  - rewrite !in_app_iff. intros Hin.
    assert (Hrep : ~ In 0xDF (repeat 0x20 (18 - length name))).
    { intros H. apply repeat_spec in H. discriminate. }
    assert (Hlit : forall l, bytes_okb l = true -> ~ In 0x7F l ->
                     ~ In 0xDF (map pet_decode l)).
    { intros l Hl Hno H. apply Hno, decoded_sharp_s; [|exact H].
      now apply bytes_okb_ok. }
    assert (Hfield : forall start stop,
              ~ In 0x7F (py_slice bam start stop) ->
              ~ In 0xDF (map pet_decode (py_slice bam start stop))).
    { intros start stop Hno H. apply Hno, decoded_sharp_s; [|exact H].
      now apply py_slice_ok. }
    assert (Hnm : ~ In 0xDF name).
    { intros H. apply decoded_sharp_s in H;
        [|now apply PETdelpadding_ok, py_slice_ok].
      apply Hn. rewrite PETdelpadding_as_filter in H.
      now apply filter_In in H. }
    repeat destruct Hin as [Hin|Hin];
      try (now apply Hrep); try (now apply Hnm);
      try (now apply (Hfield 0xA2 0xA4)); try (now apply (Hfield 0xA5 0xA7));
      try (vm_compute in Hin; intuition discriminate).
Qed.

Lemma getheader_layout_witness :
  exists h, getheader scenario_bam = Ok h /\ length h = 30%nat.
Proof.
  assert (Hbuf : sector_buffer scenario_bam).
  { split; [reflexivity|]. apply bytes_okb_ok. reflexivity. }
  apply (proj2 (proj2 (proj2 (proj2 (proj2 (proj2
           (getheader_layout scenario_bam Hbuf)))))));
    vm_compute; intuition discriminate.
Defined.

(** ** The entries of a directory *)

Lemma take2_drop (l : bytes) (n : nat) :
  (n + 2 <= length l)%nat -> take 2 (drop n l) = [nth n l 0; nth (S n) l 0].
Proof.
  revert l. induction n as [|n IH]; intros l Hl.
  - destruct l as [|x [|y l]]; simpl in Hl; try lia. reflexivity.
  - destruct l as [|x l]; simpl in Hl; [lia|]. simpl drop.
    rewrite IH by lia. reflexivity.
Qed.

Lemma py_slice_pair (l : bytes) (a : Z) :
  0 <= a -> a + 2 <= Z.of_nat (length l) ->
  py_slice l a (a + 2)
  = [nth (Z.to_nat a) l 0; nth (Z.to_nat (a + 1)) l 0].
Proof.
  intros Ha Hl. unfold py_slice, py_clamp.
  destruct (Z.ltb_spec a 0); [lia|]. destruct (Z.ltb_spec (a + 2) 0); [lia|].
  rewrite !Z.min_l by lia.
  replace (Z.to_nat (a + 2 - a)) with 2%nat by lia.
  rewrite take2_drop by lia. do 2 f_equal.
  f_equal. lia.
Qed.

Lemma slot_name_length (dir : bytes) (start : Z) :
  0 <= start ->
  (length (map pet_decode (PETdelpadding (py_slice dir start (start + 16))))
   <= 16)%nat.
Proof.
  intros Hstart. rewrite length_map, PETdelpadding_as_filter.
  etransitivity; [apply filter_length_le|].
  pose proof (py_slice_length dir start (start + 16) ltac:(lia) ltac:(lia)).
  lia.
Qed.

(** One pass of the loop body: it appends nothing, or the entry of the
    slot. *)
Lemma dirpass_slot_entry (dir : bytes) (fl fl' : list file) (ptr : Z) :
  bytes_ok dir -> 0 <= ptr < slot_count dir ->
  dirpass_slot dir fl ptr = Ok fl' ->
  fl' = fl
  \/ exists f, fl' = fl ++ [f] /\ entry_of_slot dir ptr f /\ entry_in_range f.
Proof.
  intros Hok Hptr. rewrite dirpass_slot_cases by exact Hptr. cbv zeta.
  apply slot_in_dir in Hptr as [Hlo Hhi].
  destruct (slot_type_byte dir ptr >? 0) eqn:Hpos; [|intros [= <-]; now left].
  destruct (py_getitem FILETYPES _) as [type|e] eqn:Htype; simpl;
    [|discriminate].
  rewrite PETtoASC_decode by now apply PETdelpadding_ok, py_slice_ok.
  cbn [mbind result_bind]. intros [= <-]. right. eexists.
  split; [reflexivity|].
  replace (0x20 * ptr + 0x20) with (0x20 * ptr + 0x1E + 2) by lia.
  rewrite py_slice_pair by lia.
  replace (0x20 * ptr + 0x1E + 1) with (0x20 * ptr + 0x1F) by lia.
  pose proof (bytes_ok_nth dir (Z.to_nat (0x20 * ptr + 0x1E)) Hok).
  pose proof (bytes_ok_nth dir (Z.to_nat (0x20 * ptr + 0x1F)) Hok).
  split.
  - unfold entry_of_slot. cbn [file_base file_type file_locked file_closed
      file_track file_sector file_name file_size int_from_bytes_little
      fold_right].
    repeat split; try reflexivity.
    + intros Hz. rewrite Hz in Hpos. discriminate.
    + exact Htype.
    + change 0x40 with (Z.shiftl 1 6). now rewrite land_mask_gtb.
    + change 0x80 with (Z.shiftl 1 7). now rewrite land_mask_gtb.
    + lia.
  - unfold entry_in_range. cbn [file_base file_type file_locked file_closed
      file_track file_sector file_name file_size int_from_bytes_little
      fold_right].
    apply py_getitem_Ok in Htype as (k & _ & Hk).
    split; [apply list_elem_of_In; eapply list_elem_of_lookup_2, Hk|].
    split; [now apply bytes_ok_nth|]. split; [now apply bytes_ok_nth|].
    split; [lia|].
    replace (0x20 * ptr + 0x15) with (0x20 * ptr + 0x05 + 16) by lia.
    apply slot_name_length. lia.
Qed.

Lemma dirpass_loop_entries (dir : bytes) (ptrs : list Z) :
  bytes_ok dir ->
  (forall ptr, In ptr ptrs -> 0 <= ptr < slot_count dir) ->
  forall fl fl',
    for_each (dirpass_slot dir) ptrs fl = Ok fl' ->
    exists added,
      fl' = fl ++ added
      /\ Forall (fun f => exists ptr,
                   In ptr ptrs /\ entry_of_slot dir ptr f /\ entry_in_range f)
                added.
Proof.
  intros Hok. induction ptrs as [|ptr ptrs IH]; intros Hin fl fl'.
  - simpl. intros [= <-]. exists []. split; [now rewrite app_nil_r|constructor].
  - simpl. destruct (dirpass_slot dir fl ptr) as [fl1|e] eqn:Hslot; simpl;
      [|discriminate].
    intros Hloop.
    apply IH in Hloop as (added & -> & Hadded);
      [|intros p Hp; apply Hin; now right].
    assert (Hadded' : Forall (fun f => exists p,
                        In p (ptr :: ptrs) /\ entry_of_slot dir p f
                        /\ entry_in_range f) added).
    { eapply Forall_impl; [exact Hadded|].
      intros f (p & Hp & Hf). exists p. split; [now right|exact Hf]. }
    apply dirpass_slot_entry in Hslot as [->|(f & -> & Hf)];
      [| |exact Hok|apply Hin; now left].
    + exists added. split; [reflexivity|exact Hadded'].
    + exists (f :: added). split; [now rewrite <- app_assoc|].
      constructor; [|exact Hadded']. exists ptr. split; [now left|exact Hf].
Qed.

(** X19: The slots of a directory built from [dirblocks] are the bytes of
    [dirblocks] from 256 on; its entries are, one for one and in slot
    order, the slots with a non-zero type byte; and every entry is the
    entry of its slot: type [FILETYPES[t & 7]], locked and closed bits 6
    and 7 of the type byte, track and sector the bytes at 3 and 4, the name
    the decoded 16 bytes from 5 without the 0xA0, at most 16 characters,
    and the size the little-endian 16 bits at 0x1E, below 65536. *)
Theorem dirpass_entries (dirblocks : bytes) (d : Dir) :
  bytes_ok dirblocks -> Dir_init dirblocks = Ok d ->
  let dir := py_slice dirblocks 256 (Z.of_nat (length dirblocks)) in
  dir_dir d = dir
  /\ map file_base (filelist d)
     = map (Z.mul 0x20)
         (List.filter (fun ptr => slot_type_byte dir ptr >? 0)
                      (py_range 0 (slot_count dir) 1))
  /\ Forall (fun f => exists ptr,
               0 <= ptr < slot_count dir
               /\ entry_of_slot dir ptr f /\ entry_in_range f)
            (filelist d).
Proof.
  intros Hok Hd dir.
  apply Dir_init_Ok in Hd as (_ & Hdir & _ & _ & _ & _ & Hloop).
  rewrite Hdir in Hloop. fold dir in Hdir, Hloop.
  assert (Hbytes : bytes_ok dir) by now apply py_slice_ok.
  split; [exact Hdir|]. split.
  - apply dirpass_loop_bases in Hloop; [exact Hloop|apply py_range_In_inv].
  - apply dirpass_loop_entries in Hloop as (added & Hfl & Hadded);
      [|exact Hbytes|apply py_range_In_inv].
    rewrite Hfl. cbn [app]. eapply Forall_impl; [exact Hadded|].
    intros f (ptr & Hptr & Hf). exists ptr. split; [|exact Hf].
    now apply py_range_In_inv in Hptr.
Qed.

Lemma dirpass_entries_witness :
  exists d,
    Dir_init scenario_dirblocks = Ok d
    /\ let dir := py_slice scenario_dirblocks 256
                    (Z.of_nat (length scenario_dirblocks)) in
       dir_dir d = dir
       /\ map file_base (filelist d)
          = map (Z.mul 0x20)
              (List.filter (fun ptr => slot_type_byte dir ptr >? 0)
                           (py_range 0 (slot_count dir) 1))
       /\ Forall (fun f => exists ptr,
                    0 <= ptr < slot_count dir
                    /\ entry_of_slot dir ptr f /\ entry_in_range f)
                 (filelist d).
Proof.
  eexists. split; [vm_compute; reflexivity|].
  apply (dirpass_entries scenario_dirblocks).
  - apply bytes_okb_ok. reflexivity.
  - vm_compute. reflexivity.
Defined.

Lemma dirpass_slot_bad_type (dir : bytes) (fl : list file) (ptr : Z) :
  bytes_ok dir -> 0 <= ptr < slot_count dir ->
  5 <= Z.land (slot_type_byte dir ptr) 0x07 ->
  dirpass_slot dir fl ptr = Raise IndexError.
Proof.
  intros Hok Hptr Hbad. rewrite dirpass_slot_cases by exact Hptr. cbv zeta.
  pose proof (bytes_ok_nth dir (Z.to_nat (0x20 * ptr + 0x02)) Hok) as Ht.
  fold (slot_type_byte dir ptr) in Ht.
  destruct (Z.gtb_spec (slot_type_byte dir ptr) 0) as [_|Hz].
  - rewrite py_getitem_out; [reflexivity|].
    right. change (Z.of_nat (length FILETYPES)) with 5. exact Hbad.
  - assert (slot_type_byte dir ptr = 0) as Hz' by lia.
    rewrite Hz' in Hbad. change (Z.land 0 7) with 0 in Hbad. lia.
Qed.

Lemma dirpass_slot_Raise (dir : bytes) (fl : list file) (ptr : Z) (e : exn) :
  bytes_ok dir -> 0 <= ptr < slot_count dir ->
  dirpass_slot dir fl ptr = Raise e -> e = IndexError.
Proof.
  intros Hok Hptr.
  destruct (Z.lt_ge_cases (Z.land (slot_type_byte dir ptr) 0x07) 5) as [Hgood|Hbad].
  - destruct (dirpass_slot_total dir fl ptr Hok Hptr Hgood) as [fl' ->].
    discriminate.
  - rewrite dirpass_slot_bad_type by assumption. now intros [= <-].
Qed.

Lemma dirpass_loop_bad_type (dir : bytes) (ptrs : list Z) :
  bytes_ok dir ->
  (forall ptr, In ptr ptrs -> 0 <= ptr < slot_count dir) ->
  (exists ptr, In ptr ptrs /\ 5 <= Z.land (slot_type_byte dir ptr) 0x07) ->
  forall fl, for_each (dirpass_slot dir) ptrs fl = Raise IndexError.
Proof.
  intros Hok. induction ptrs as [|ptr ptrs IH]; intros Hin (bad & Hbad & Htype) fl.
  - destruct Hbad.
  - simpl. destruct (dirpass_slot dir fl ptr) as [fl1|e] eqn:Hslot; simpl.
    + apply IH; [intros p Hp; apply Hin; now right|].
      destruct Hbad as [<-|Hbad]; [|eauto].
      rewrite dirpass_slot_bad_type in Hslot; [discriminate|exact Hok| |exact Htype].
      apply Hin. now left.
    + f_equal. eapply dirpass_slot_Raise; [exact Hok| |exact Hslot].
      apply Hin. now left.
Qed.

(** X20: All or nothing: on a buffer of at least 141 bytes, one slot whose type
    byte has low bits 5, 6 or 7 makes the whole construction raise
    [IndexError], whatever the other slots hold; otherwise the construction
    succeeds. *)
Theorem Dir_init_type_errors (dirblocks : bytes) :
  bytes_ok dirblocks -> (141 <= length dirblocks)%nat ->
  let dir := py_slice dirblocks 256 (Z.of_nat (length dirblocks)) in
  ((exists ptr, 0 <= ptr < slot_count dir
                /\ 5 <= Z.land (slot_type_byte dir ptr) 0x07) ->
     Dir_init dirblocks = Raise IndexError)
  /\ ((forall ptr, 0 <= ptr < slot_count dir ->
         Z.land (slot_type_byte dir ptr) 0x07 < 5) ->
      exists d, Dir_init dirblocks = Ok d).
Proof.
  intros Hok Hlen dir. split; [|now apply Dir_init_total].
  intros (bad & Hbad & Htype).
  unfold Dir_init, dirpass. cbv zeta. fold dir.
  set (bam := py_slice dirblocks 0 256).
  assert (Hbam : bytes_ok bam) by now apply py_slice_ok.
  assert (Hdir : bytes_ok dir) by now apply py_slice_ok.
  destruct (getdiskname_total bam Hbam) as [t ->].
  destruct (getdiskident_total bam Hbam) as [i ->].
  rewrite getblocksfree_sum
    by (unfold bam; rewrite py_slice_length by lia; lia).
  destruct (getheader_total bam Hbam) as [h ->].
  cbn [mbind result_bind].
  rewrite (dirpass_loop_bad_type dir _ Hdir); [reflexivity| |].
  - apply py_range_In_inv.
  - exists bad. split; [|exact Htype].
    unfold py_range. rewrite Z.div_1_r. apply range_from_In.
    unfold slot_count in Hbad. lia.
Qed.

Lemma Dir_init_type_errors_witness :
  Dir_init (scenario_bam ++ [0; 0; 0x85] ++ repeat 0 29) = Raise IndexError.
Proof.
  apply (proj1 (Dir_init_type_errors
                  (scenario_bam ++ [0; 0; 0x85] ++ repeat 0 29)
                  ltac:(apply bytes_okb_ok; reflexivity)
                  ltac:(vm_compute; lia))).
  exists 0. vm_compute. repeat split; discriminate.
Defined.

(** ** A fragment after the last whole slot *)

Lemma py_slice_app_l {A : Type} (l k : list A) (a b : Z) :
  0 <= a <= b -> b <= Z.of_nat (length l) ->
  py_slice (l ++ k) a b = py_slice l a b.
Proof.
  intros Ha Hb. unfold py_slice, py_clamp. rewrite length_app.
  destruct (Z.ltb_spec a 0); [lia|]. destruct (Z.ltb_spec b 0); [lia|].
  rewrite !Z.min_l by lia.
  rewrite drop_app_le by lia. apply take_app_le. rewrite length_drop. lia.
Qed.

Lemma py_slice_from {A : Type} (l : list A) (a : Z) :
  0 <= a <= Z.of_nat (length l) ->
  py_slice l a (Z.of_nat (length l)) = drop (Z.to_nat a) l.
Proof.
  intros Ha. unfold py_slice, py_clamp.
  destruct (Z.ltb_spec a 0); [lia|].
  destruct (Z.ltb_spec (Z.of_nat (length l)) 0); [lia|].
  rewrite !Z.min_l by lia. apply take_ge. rewrite length_drop. lia.
Qed.

Lemma dirpass_slot_app (dir tail : bytes) (fl : list file) (ptr : Z) :
  0 <= ptr < slot_count dir ->
  dirpass_slot (dir ++ tail) fl ptr = dirpass_slot dir fl ptr.
Proof.
  intros Hptr.
  assert (Hptr' : 0 <= ptr < slot_count (dir ++ tail)).
  { unfold slot_count in *. rewrite length_app, Nat2Z.inj_add.
    split; [lia|]. eapply Z.lt_le_trans; [apply Hptr|].
    apply Z.div_le_mono; lia. }
  rewrite !dirpass_slot_cases by assumption. cbv zeta.
  apply slot_in_dir in Hptr as [Hlo Hhi].
  unfold slot_type_byte.
  rewrite !(app_nth1 dir tail) by lia.
  rewrite !(py_slice_app_l dir tail) by lia. reflexivity.
Qed.

(** X21: Only whole slots are read: bytes appended to the buffer that do not
    complete a further 32-byte slot change nothing of what the directory
    shows, neither its title, ID, blocks free and header nor its entries
    nor the error it raises. *)
Theorem Dir_init_trailing_fragment (buf tail : bytes) :
  (256 <= length buf)%nat ->
  (Z.of_nat (length buf) - 256) mod 32 + Z.of_nat (length tail) < 32 ->
  (d ← Dir_init (buf ++ tail);
   Ok (title d, ident d, blocksfree d, header d, filelist d))
  = (d ← Dir_init buf;
     Ok (title d, ident d, blocksfree d, header d, filelist d)).
Proof.
  intros Hlen Hfrag. unfold Dir_init, dirpass. cbv zeta.
  rewrite (py_slice_app_l buf tail 0 256) by lia.
  rewrite !py_slice_from by (rewrite ?length_app; lia).
  rewrite drop_app_le by lia.
  set (bam := py_slice buf 0 256). set (dir := drop (Z.to_nat 256) buf).
  assert (Hdir : Z.of_nat (length dir) = Z.of_nat (length buf) - 256)
    by (unfold dir; rewrite length_drop; lia).
  assert (Hslots : Z.of_nat (length (dir ++ tail)) / 0x20
                   = Z.of_nat (length dir) / 0x20).
  { rewrite length_app, Nat2Z.inj_add. rewrite Hdir in *.
    set (n := Z.of_nat (length buf) - 256) in *.
    pose proof (Z.div_mod n 32 ltac:(lia)).
    pose proof (Z.mod_pos_bound n 32 ltac:(lia)).
    symmetry. apply (Z.div_unique _ 32 _ (n mod 32 + Z.of_nat (length tail)));
      lia. }
  rewrite Hslots.
  rewrite (for_each_ext (dirpass_slot (dir ++ tail)) (dirpass_slot dir)).
  - destruct (getdiskname bam); [|reflexivity].
    destruct (getdiskident bam); [|reflexivity].
    destruct (getblocksfree bam); [|reflexivity].
    destruct (getheader bam); [|reflexivity].
    cbn [mbind result_bind].
    destruct (for_each _ _ _); reflexivity.
  - intros ptr Hptr fl. apply dirpass_slot_app.
    now apply py_range_In_inv in Hptr.
Qed.

Lemma Dir_init_trailing_fragment_witness :
  (d ← Dir_init (scenario_dirblocks ++ [1; 2; 0x82]);
   Ok (title d, ident d, blocksfree d, header d, filelist d))
  = (d ← Dir_init scenario_dirblocks;
     Ok (title d, ident d, blocksfree d, header d, filelist d)).
Proof.
  apply (Dir_init_trailing_fragment scenario_dirblocks [1; 2; 0x82]).
  - vm_compute. lia.
  - vm_compute. reflexivity.
Defined.

(** ** Filenames for the host *)

Section CleanstringFacts.
Variables isspace isalnum : Z -> bool.

Let allowed (c : Z) : bool := isalnum c || (c =? 0x5F) || (c =? 0x2D).

Lemma py_lstrip_length (s : str) :
  (length (py_lstrip isspace s) <= length s)%nat.
Proof.
  induction s as [|c s IH]; [reflexivity|]. simpl.
  destruct (isspace c); simpl; lia.
Qed.

Lemma py_rstrip_length (s : str) :
  (length (py_rstrip isspace s) <= length s)%nat.
Proof.
  unfold py_rstrip. rewrite length_rev.
  etransitivity; [apply py_lstrip_length|]. now rewrite length_rev.
Qed.

Lemma py_lstrip_id (s : str) :
  Forall (fun c => isspace c = false) s -> py_lstrip isspace s = s.
Proof. intros Hs. destruct Hs as [|c s Hc _]; simpl; [|rewrite Hc]; reflexivity. Qed.

Lemma py_rstrip_id (s : str) :
  Forall (fun c => isspace c = false) s -> py_rstrip isspace s = s.
Proof.
  intros Hs. unfold py_rstrip. rewrite py_lstrip_id.
  - apply rev_involutive.
  - now apply Forall_rev.
Qed.

Lemma py_replace_char_id (old new : Z) (s : str) :
  ~ In old s -> py_replace_char old new s = s.
Proof.
  unfold py_replace_char. induction s as [|c s IH]; intros Hs; [reflexivity|].
  simpl. destruct (Z.eqb_spec c old) as [->|].
  - exfalso. apply Hs. now left.
  - rewrite IH; [reflexivity|]. intros H. apply Hs. now right.
Qed.

Lemma filter_id (P : Z -> bool) (s : str) :
  Forall (fun c => P c = true) s -> List.filter P s = s.
Proof.
  induction 1 as [|c s Hc _ IH]; [reflexivity|]. simpl. now rewrite Hc, IH.
Qed.

(** X22: What [cleanstring] returns holds alphanumeric characters, underscores
    and hyphens only, is no longer than the name, and is a fixed point:
    cleaning a cleaned name changes nothing.  The tests need to be those of
    a Python interpreter only in that no whitespace character is
    alphanumeric, the space is whitespace, and underscore and hyphen are
    not. *)
Theorem cleanstring_fixed_point (filename : str) :
  (forall c, isspace c = true -> isalnum c = false) ->
  isspace 0x20 = true -> isspace 0x5F = false -> isspace 0x2D = false ->
  let cleaned := cleanstring isspace isalnum filename in
  Forall (fun c => isalnum c = true \/ c = 0x5F \/ c = 0x2D) cleaned
  /\ ~ In 0x20 cleaned
  /\ (length cleaned <= length filename)%nat
  /\ cleanstring isspace isalnum cleaned = cleaned.
Proof.
  intros Hdisjoint Hspace Hunder Hhyphen cleaned.
  assert (Hallowed : Forall (fun c => allowed c = true) cleaned).
  { apply Forall_forall. intros c Hc. apply list_elem_of_In in Hc.
    unfold cleaned, cleanstring in Hc. now apply filter_In in Hc. }
  assert (Hchars : Forall (fun c => isalnum c = true \/ c = 0x5F \/ c = 0x2D)
                          cleaned).
  { eapply Forall_impl; [exact Hallowed|]. intros c Hc. unfold allowed in Hc.
    apply orb_true_iff in Hc as [Hc|Hc]; [|right; right; lia].
    apply orb_true_iff in Hc as [Hc|Hc]; [now left|right; left; lia]. }
  assert (Hnospace : Forall (fun c => isspace c = false) cleaned).
  { eapply Forall_impl; [exact Hchars|]. intros c [Hc|[->| ->]];
      [|assumption..].
    destruct (isspace c) eqn:Hs; [|reflexivity].
    apply Hdisjoint in Hs. congruence. }
  assert (Hno20 : ~ In 0x20 cleaned).
  { intros Hin. rewrite Forall_forall in Hnospace.
    apply list_elem_of_In, Hnospace in Hin. congruence. }
  split; [exact Hchars|]. split; [exact Hno20|]. split.
  - unfold cleaned, cleanstring. etransitivity; [apply filter_length_le|].
    unfold py_replace_char. rewrite length_map.
    etransitivity; [apply py_rstrip_length|apply py_lstrip_length].
  - unfold cleanstring at 1.
    rewrite py_lstrip_id, py_rstrip_id, py_replace_char_id by assumption.
    now apply filter_id.
Qed.
End CleanstringFacts.

Lemma ascii_tests_disjoint (c : Z) :
  ascii_isspace c = true -> ascii_isalnum c = false.
Proof.
  unfold ascii_isspace, ascii_isalnum. intros Hs.
  apply not_true_is_false. intros Ha.
  rewrite !orb_true_iff, !andb_true_iff, !Z.leb_le in Hs, Ha. lia.
Qed.

Lemma cleanstring_fixed_point_witness :
  cleanstring ascii_isspace ascii_isalnum (py_str " My File! ")
  = py_str "My_File"
  /\ cleanstring ascii_isspace ascii_isalnum
       (cleanstring ascii_isspace ascii_isalnum (py_str " My File! "))
     = cleanstring ascii_isspace ascii_isalnum (py_str " My File! ").
Proof.
  split; [vm_compute; reflexivity|].
  apply (cleanstring_fixed_point ascii_isspace ascii_isalnum
           (py_str " My File! ") ascii_tests_disjoint);
    reflexivity.
Defined.
